(** * DNS-01 validation of the validation authority (va/dns.go)

    A shallow embedding of [getAddrs], [availableAddresses] and
    [validateDNS01], together with the parts of the Go standard library
    they call ([crypto/subtle], [crypto/sha256], [encoding/base64],
    [unicode/utf8], [strconv], [net]), followed by the theorems that
    settle the specification's claims about them.

    Conventions.  A Go [string] is a [string] (a sequence of 8-bit
    characters), a [[]byte] is a [list byte], machine integers are [Z]
    with the wrap-around written out, a [nil] pointer or slice result is
    [None].  Logging and DNS queries are recorded in a trace of events
    threaded through a small state monad. *)

From Stdlib Require Import ZArith List Bool Lia Permutation.
From Stdlib Require Import Strings.String Strings.Ascii Strings.Byte.
From Stdlib Require Import Numbers.DecimalString.
From Stdlib Require Init.Byte.
Import ListNotations.

Local Open Scope string_scope.
Local Open Scope list_scope.
Local Open Scope Z_scope.

(** ** Bytes and strings *)

Definition byte_to_Z (b : byte) : Z := Z.of_N (Byte.to_N b).

(** Conversion of an integer to a byte keeps the low eight bits. *)
Definition byte_of_Z (z : Z) : byte :=
  match Byte.of_N (Z.to_N (z mod 256)) with
  | Some b => b
  | None => Init.Byte.x00
  end.

(** [[]byte(s)] and [string(b)]. *)
Definition bytes_of_string (s : string) : list byte := list_byte_of_string s.
Definition string_of_bytes (b : list byte) : string := string_of_list_byte b.

(** [len(s)] of a string, as an integer. *)
Definition len (s : string) : Z := Z.of_nat (String.length s).

(** String concatenation, Go's [+] on strings. *)
Infix "+++" := String.append (right associativity, at level 60).

(** The verb [%d] on an [int]: its decimal digits, with a sign when
    negative. *)
Definition fmt_d (n : Z) : string := NilZero.string_of_int (Z.to_int n).

(** ** crypto/subtle *)
Module subtle.

(** [int((uint32(x^y) - 1) >> 31)] *)
Definition ConstantTimeByteEq (x y : Z) : Z :=
  Z.shiftr ((Z.lxor x y - 1) mod 2 ^ 32) 31.

(** The loop [for i := 0; i < len(x); i++ { v |= x[i] ^ y[i] }], run on
    slices of equal length. *)
Definition accumulate (x y : list byte) : Z :=
  fold_left (fun v ab => Z.lor v (Z.lxor (byte_to_Z (fst ab)) (byte_to_Z (snd ab))))
            (combine x y) 0.

Definition ConstantTimeCompare (x y : list byte) : Z :=
  if negb (Nat.eqb (List.length x) (List.length y)) then 0
  else ConstantTimeByteEq (accumulate x y) 0.

End subtle.

(** ** net *)
Module net.

(** [type IP []byte] *)
Definition IP : Type := list byte.

Definition IPv4len : nat := 4.
Definition IPv6len : nat := 16.

Definition isZeros (p : list byte) : bool :=
  forallb (fun b => Byte.eqb b Init.Byte.x00) p.

(** [ip.To4()]: the 4-byte form of an IPv4 address, [None] for [nil]. *)
Definition To4 (ip : IP) : option IP :=
  if Nat.eqb (List.length ip) IPv4len then Some ip
  else if Nat.eqb (List.length ip) IPv6len
          && isZeros (firstn 10 ip)
          && Byte.eqb (nth 10 ip Init.Byte.x00) Init.Byte.xff
          && Byte.eqb (nth 11 ip Init.Byte.x00) Init.Byte.xff
       then Some (firstn 4 (skipn 12 ip))
       else None.

End net.

(** ** crypto/sha256 *)
Module sha256.

Definition Size : nat := 32.
Definition chunk : nat := 64.

(** Arithmetic on [uint32]. *)
Definition u32 (x : Z) : Z := x mod 2 ^ 32.
Definition add32 (x y : Z) : Z := u32 (x + y).
(** [bits.RotateLeft32(x, -k)] *)
Definition rotr (x k : Z) : Z :=
  Z.lor (Z.shiftr x k) (u32 (Z.shiftl x (32 - k))).
(** [^x] on a [uint32] *)
Definition not32 (x : Z) : Z := Z.lxor x 0xFFFFFFFF.

Definition init : list Z :=
  [0x6A09E667; 0xBB67AE85; 0x3C6EF372; 0xA54FF53A;
   0x510E527F; 0x9B05688C; 0x1F83D9AB; 0x5BE0CD19].

Definition _K : list Z :=
  [0x428A2F98; 0x71374491; 0xB5C0FBCF; 0xE9B5DBA5; 0x3956C25B; 0x59F111F1; 0x923F82A4; 0xAB1C5ED5;
   0xD807AA98; 0x12835B01; 0x243185BE; 0x550C7DC3; 0x72BE5D74; 0x80DEB1FE; 0x9BDC06A7; 0xC19BF174;
   0xE49B69C1; 0xEFBE4786; 0x0FC19DC6; 0x240CA1CC; 0x2DE92C6F; 0x4A7484AA; 0x5CB0A9DC; 0x76F988DA;
   0x983E5152; 0xA831C66D; 0xB00327C8; 0xBF597FC7; 0xC6E00BF3; 0xD5A79147; 0x06CA6351; 0x14292967;
   0x27B70A85; 0x2E1B2138; 0x4D2C6DFC; 0x53380D13; 0x650A7354; 0x766A0ABB; 0x81C2C92E; 0x92722C85;
   0xA2BFE8A1; 0xA81A664B; 0xC24B8B70; 0xC76C51A3; 0xD192E819; 0xD6990624; 0xF40E3585; 0x106AA070;
   0x19A4C116; 0x1E376C08; 0x2748774C; 0x34B0BCB5; 0x391C0CB3; 0x4ED8AA4A; 0x5B9CCA4F; 0x682E6FF3;
   0x748F82EE; 0x78A5636F; 0x84C87814; 0x8CC70208; 0x90BEFFFA; 0xA4506CEB; 0xBEF9A3F7; 0xC67178F2].

(** [w[i]] for [i < 16]: four bytes of the chunk, big-endian. *)
Fixpoint words (p : list byte) : list Z :=
  match p with
  | b0 :: b1 :: b2 :: b3 :: p' =>
      Z.lor (Z.lor (Z.lor (Z.shiftl (byte_to_Z b0) 24) (Z.shiftl (byte_to_Z b1) 16))
                   (Z.shiftl (byte_to_Z b2) 8)) (byte_to_Z b3) :: words p'
  | _ => []
  end.

(** [w[i]] for [16 <= i < 64], appended one at a time. *)
Fixpoint schedule (n : nat) (w : list Z) : list Z :=
  match n with
  | O => w
  | S n' =>
      let i := List.length w in
      let v1 := nth (i - 2) w 0 in
      let t1 := Z.lxor (Z.lxor (rotr v1 17) (rotr v1 19)) (Z.shiftr v1 10) in
      let v2 := nth (i - 15) w 0 in
      let t2 := Z.lxor (Z.lxor (rotr v2 7) (rotr v2 18)) (Z.shiftr v2 3) in
      schedule n' (w ++ [add32 (add32 (add32 t1 (nth (i - 7) w 0)) t2) (nth (i - 16) w 0)])
  end.

(** One iteration of the compression loop on the working variables. *)
Definition round (s : list Z) (kw : Z * Z) : list Z :=
  match s with
  | [a; b; c; d; e; f; g; h] =>
      let t1 := add32 (add32 (add32 (add32 h
                  (Z.lxor (Z.lxor (rotr e 6) (rotr e 11)) (rotr e 25)))
                  (Z.lxor (Z.land e f) (Z.land (not32 e) g))) (fst kw)) (snd kw) in
      let t2 := add32 (Z.lxor (Z.lxor (rotr a 2) (rotr a 13)) (rotr a 22))
                  (Z.lxor (Z.lxor (Z.land a b) (Z.land a c)) (Z.land b c)) in
      [add32 t1 t2; a; b; c; add32 d t1; e; f; g]
  | _ => s
  end.

(** The body of [blockGeneric] for one chunk of 64 bytes. *)
Definition block1 (h : list Z) (p : list byte) : list Z :=
  let w := schedule 48 (words p) in
  let s := fold_left round (combine _K w) h in
  map (fun xy => add32 (fst xy) (snd xy)) (combine h s).

(** [blockGeneric]: [for len(p) >= chunk { ...; p = p[chunk:] }]. *)
Fixpoint block (fuel : nat) (h : list Z) (p : list byte) : list Z :=
  match fuel with
  | O => h
  | S fuel' =>
      if (List.length p <? chunk)%nat then h
      else block fuel' (block1 h (firstn chunk p)) (skipn chunk p)
  end.

(** [BePutUint64] and [BePutUint32]. *)
Definition be_bytes (n : nat) (x : Z) : list byte :=
  map (fun i => byte_of_Z (Z.shiftr x (8 * Z.of_nat i))) (rev (seq 0 n)).

(** The padding written by [checkSum]: a 1 bit, 0 bits up to 56 bytes
    mod 64, then the length in bits as a [uint64]. *)
Definition padding (length : Z) : list byte :=
  let t := if length mod 64 <? 56 then 56 - length mod 64
           else 64 + 56 - length mod 64 in
  firstn (Z.to_nat t) (Init.Byte.x80 :: repeat Init.Byte.x00 (64 + 8))
    ++ be_bytes 8 (Z.shiftl length 3 mod 2 ^ 64).

Definition Sum256 (data : list byte) : list byte :=
  let p := data ++ padding (Z.of_nat (List.length data)) in
  flat_map (be_bytes 4) (block (List.length p) init p).

(** The [hash.Hash] returned by [New]: the bytes written so far. *)
Definition digest : Type := list byte.
Definition New : digest := [].
Definition Write (d : digest) (p : list byte) : digest := d ++ p.
Definition Sum (d : digest) (b : list byte) : list byte := b ++ Sum256 d.

End sha256.

(** ** encoding/base64 *)
Module base64.

(** An [Encoding]: its 64-character alphabet and its padding character,
    [None] for [NoPadding]. *)
Record Encoding : Type := NewEncoding {
  encode : string;
  padChar : option ascii
}.

Definition encodeStd : string :=
  "ABCDEFGHIJKLMNOPQRSTUVWXYZabcdefghijklmnopqrstuvwxyz0123456789+/".
Definition encodeURL : string :=
  "ABCDEFGHIJKLMNOPQRSTUVWXYZabcdefghijklmnopqrstuvwxyz0123456789-_".

Definition StdPadding : ascii := "="%char.

Definition WithPadding (enc : Encoding) (padding : option ascii) : Encoding :=
  {| encode := encode enc; padChar := padding |}.

Definition URLEncoding : Encoding :=
  {| encode := encodeURL; padChar := Some StdPadding |}.
Definition RawURLEncoding : Encoding := WithPadding URLEncoding None.

(** [enc.encode[v&0x3F]] *)
Definition sextet (enc : Encoding) (v : Z) : ascii :=
  match String.get (Z.to_nat (Z.land v 0x3F)) (encode enc) with
  | Some c => c
  | None => zero
  end.

Definition pad (enc : Encoding) (n : nat) : string :=
  match padChar enc with
  | Some c => string_of_list_ascii (repeat c n)
  | None => ""
  end.

(** [enc.EncodeToString(src)]: three source bytes give four characters;
    a remainder of two bytes gives three characters and one of one byte
    gives two, followed by padding when the encoding has it. *)
Fixpoint EncodeToString (enc : Encoding) (src : list byte) : string :=
  match src with
  | [] => ""
  | [s0] =>
      let val := Z.shiftl (byte_to_Z s0) 16 in
      String (sextet enc (Z.shiftr val 18))
        (String (sextet enc (Z.shiftr val 12)) (pad enc 2))
  | [s0; s1] =>
      let val := Z.lor (Z.shiftl (byte_to_Z s0) 16) (Z.shiftl (byte_to_Z s1) 8) in
      String (sextet enc (Z.shiftr val 18))
        (String (sextet enc (Z.shiftr val 12))
           (String (sextet enc (Z.shiftr val 6)) (pad enc 1)))
  | s0 :: s1 :: s2 :: src' =>
      let val := Z.lor (Z.lor (Z.shiftl (byte_to_Z s0) 16) (Z.shiftl (byte_to_Z s1) 8))
                       (byte_to_Z s2) in
      String (sextet enc (Z.shiftr val 18))
        (String (sextet enc (Z.shiftr val 12))
           (String (sextet enc (Z.shiftr val 6))
              (String (sextet enc val) (EncodeToString enc src'))))
  end.

End base64.

(** ** unicode/utf8 *)
Module utf8.

Definition RuneError : Z := 0xFFFD.
Definition RuneSelf : Z := 0x80.
Definition MaxRune : Z := 0x10FFFF.
Definition surrogateMin : Z := 0xD800.
Definition surrogateMax : Z := 0xDFFF.

Definition tx : Z := 0x80.
Definition t2 : Z := 0xC0.
Definition t3 : Z := 0xE0.
Definition t4 : Z := 0xF0.
Definition maskx : Z := 0x3F.
Definition mask2 : Z := 0x1F.
Definition mask3 : Z := 0x0F.
Definition mask4 : Z := 0x07.
Definition rune1Max : Z := 0x7F.
Definition rune2Max : Z := 0x7FF.
Definition rune3Max : Z := 0xFFFF.
Definition locb : Z := 0x80.
Definition hicb : Z := 0xBF.

(** Codes of the table [first]: the size of the sequence in the low
    bits, the index into [acceptRanges] in the high ones. *)
Definition xx : Z := 0xF1.
Definition as_ : Z := 0xF0.
Definition s1 : Z := 0x02.
Definition s2 : Z := 0x13.
Definition s3 : Z := 0x03.
Definition s4 : Z := 0x23.
Definition s5 : Z := 0x34.
Definition s6 : Z := 0x04.
Definition s7 : Z := 0x44.

(** The table [first], indexed by the first byte of a sequence. *)
Definition first (b : Z) : Z :=
  if b <? 0x80 then as_
  else if b <? 0xC2 then xx
  else if b <? 0xE0 then s1
  else if b =? 0xE0 then s2
  else if b <? 0xED then s3
  else if b =? 0xED then s4
  else if b <? 0xF0 then s3
  else if b =? 0xF0 then s5
  else if b <? 0xF4 then s6
  else if b =? 0xF4 then s7
  else xx.

(** The table [acceptRanges]: bounds on the second byte. *)
Definition acceptRanges (i : Z) : Z * Z :=
  if i =? 0 then (locb, hicb)
  else if i =? 1 then (0xA0, hicb)
  else if i =? 2 then (locb, 0x9F)
  else if i =? 3 then (0x90, hicb)
  else if i =? 4 then (locb, 0x8F)
  else (0, 0).

(** [DecodeRune(p)]: the rune at the head of [p] and its width. *)
Definition DecodeRune (p : list byte) : Z * nat :=
  match p with
  | [] => (RuneError, O)
  | b0 :: _ =>
      let p0 := byte_to_Z b0 in
      let x := first p0 in
      if as_ <=? x then
        let mask := if Z.testbit x 0 then -1 else 0 in
        (Z.lor (Z.land p0 (Z.lnot mask)) (Z.land RuneError mask), 1%nat)
      else
        let sz := Z.to_nat (Z.land x 7) in
        let accept := acceptRanges (Z.shiftr x 4) in
        if (List.length p <? sz)%nat then (RuneError, 1%nat)
        else
          let b1 := byte_to_Z (nth 1 p Init.Byte.x00) in
          if (b1 <? fst accept) || (snd accept <? b1) then (RuneError, 1%nat)
          else if (sz <=? 2)%nat then
            (Z.lor (Z.shiftl (Z.land p0 mask2) 6) (Z.land b1 maskx), 2%nat)
          else
            let b2 := byte_to_Z (nth 2 p Init.Byte.x00) in
            if (b2 <? locb) || (hicb <? b2) then (RuneError, 1%nat)
            else if (sz <=? 3)%nat then
              (Z.lor (Z.lor (Z.shiftl (Z.land p0 mask3) 12)
                            (Z.shiftl (Z.land b1 maskx) 6))
                     (Z.land b2 maskx), 3%nat)
            else
              let b3 := byte_to_Z (nth 3 p Init.Byte.x00) in
              if (b3 <? locb) || (hicb <? b3) then (RuneError, 1%nat)
              else
                (Z.lor (Z.lor (Z.lor (Z.shiftl (Z.land p0 mask4) 18)
                                     (Z.shiftl (Z.land b1 maskx) 12))
                              (Z.shiftl (Z.land b2 maskx) 6))
                       (Z.land b3 maskx), 4%nat)
  end.

(** The number of bytes of the well-formed sequence at the head of [p],
    as the loop of [Valid] checks it; [None] when there is none. *)
Definition sequenceAt (p : list byte) : option nat :=
  match p with
  | [] => None
  | b0 :: _ =>
      let pi := byte_to_Z b0 in
      if pi <? RuneSelf then Some 1%nat
      else
        let x := first pi in
        if x =? xx then None
        else
          let size := Z.to_nat (Z.land x 7) in
          if (List.length p <? size)%nat then None
          else
            let accept := acceptRanges (Z.shiftr x 4) in
            let c1 := byte_to_Z (nth 1 p Init.Byte.x00) in
            if (c1 <? fst accept) || (snd accept <? c1) then None
            else if (size =? 2)%nat then Some size
            else
              let c2 := byte_to_Z (nth 2 p Init.Byte.x00) in
              if (c2 <? locb) || (hicb <? c2) then None
              else if (size =? 3)%nat then Some size
              else
                let c3 := byte_to_Z (nth 3 p Init.Byte.x00) in
                if (c3 <? locb) || (hicb <? c3) then None
                else Some size
  end.

(** The loop [for i := 0; i < n; { ...; i += size }] of [Valid]: [skip]
    counts the bytes still to step over to reach index [i]. *)
Fixpoint validFrom (skip : nat) (p : list byte) : bool :=
  match p with
  | [] => true
  | _ :: p' =>
      match skip with
      | S k => validFrom k p'
      | O =>
          match sequenceAt p with
          | Some size => validFrom (size - 1) p'
          | None => false
          end
      end
  end.

(** [Valid(p)]: [p] consists entirely of well-formed sequences. *)
Definition Valid (p : list byte) : bool := validFrom 0 p.

(** [AppendRune(nil, r)]: the UTF-8 encoding of [r], that of
    [RuneError] when [r] is not a valid rune. *)
Definition AppendRune (r : Z) : list byte :=
  let i := r mod 2 ^ 32 in
  if i <=? rune1Max then [byte_of_Z r]
  else if i <=? rune2Max then
    [byte_of_Z (Z.lor t2 (Z.shiftr r 6));
     byte_of_Z (Z.lor tx (Z.land r maskx))]
  else
    let r3 := if (MaxRune <? i) || ((surrogateMin <=? i) && (i <=? surrogateMax))
              then Some RuneError
              else if i <=? rune3Max then Some r else None in
    match r3 with
    | Some r =>
        [byte_of_Z (Z.lor t3 (Z.shiftr r 12));
         byte_of_Z (Z.lor tx (Z.land (Z.shiftr r 6) maskx));
         byte_of_Z (Z.lor tx (Z.land r maskx))]
    | None =>
        [byte_of_Z (Z.lor t4 (Z.shiftr r 18));
         byte_of_Z (Z.lor tx (Z.land (Z.shiftr r 12) maskx));
         byte_of_Z (Z.lor tx (Z.land (Z.shiftr r 6) maskx));
         byte_of_Z (Z.lor tx (Z.land r maskx))]
    end.

(** The runes a [for _, v := range s] loop yields on the bytes [p]; the
    loop advances by the width of each rune, counted by [skip]. *)
Fixpoint rangeFrom (skip : nat) (p : list byte) : list Z :=
  match p with
  | [] => []
  | _ :: p' =>
      match skip with
      | S k => rangeFrom k p'
      | O => fst (DecodeRune p) :: rangeFrom (snd (DecodeRune p) - 1) p'
      end
  end.

Definition range (s : string) : list Z := rangeFrom 0 (bytes_of_string s).

End utf8.

(** Modelled from the spec: [replaceInvalidUTF8], a helper of package [va]
    that is not part of dns.go.  The spec has it validate the record and
    repair what is not well-formed UTF-8 (sections 4.4 step 8 and 9): a
    valid input is returned as it is; otherwise the input is read rune by
    rune, each byte that starts no well-formed sequence yielding U+FFFD,
    and the runes are written out again. *)
Definition replaceInvalidUTF8 (input : list byte) : string :=
  if utf8.Valid input then string_of_bytes input
  else string_of_bytes (flat_map utf8.AppendRune (utf8.range (string_of_bytes input))).


(** ** Errors and formatting verbs *)

(** A non-nil [error]: the text its [Error()] method returns. *)
Record error : Type := mkError { Error : string }.

(** The verb [%q] on a string is [strconv.Quote], a double-quoted Go
    string literal whose escapes depend on the Unicode tables of the Go
    release; the development is parametric in it. *)
Class Formatter : Type := { fmt_q : string -> string }.

(** The verbs [%s] on a string and [%v] on an error. *)
Definition fmt_s (s : string) : string := s.
Definition fmt_v (err : error) : string := Error err.

(** ** core *)
Module core.

(** Modelled from the spec: the identifier types of package [core]
    (section 3: an enumeration with [DNS] among its members). *)
Inductive IdentifierType : Type :=
| IdentifierDNS
| IdentifierOther (name : string).

Definition IdentifierType_eqb (a b : IdentifierType) : bool :=
  match a, b with
  | IdentifierDNS, IdentifierDNS => true
  | IdentifierOther x, IdentifierOther y => String.eqb x y
  | _, _ => false
  end.

(** Modelled from the spec: the fields of [core.AcmeIdentifier] (section
    3); the field [Type] is written [Type_]. *)
Record AcmeIdentifier : Type := {
  Type_ : IdentifierType;
  Value : string
}.

(** Modelled from the spec: the field of [core.Challenge] that the
    validation reads (section 3). *)
Record Challenge : Type := {
  ProvidedKeyAuthorization : string
}.

(** Modelled from the spec: the fields of [core.ValidationRecord] that
    the validation sets (section 3). *)
Record ValidationRecord : Type := {
  Authorities : list string;
  Hostname : string
}.

(** Modelled from the spec: the constant [core.DNSPrefix] (section 4.4
    step 3). *)
Definition DNSPrefix : string := "_acme-challenge".

End core.

(** ** probs *)
Module probs.

(** Modelled from the spec: the kinds of problem the validation returns
    (section 3). *)
Inductive ProblemType : Type :=
| MalformedProblem
| DNSProblem
| UnknownHostProblem
| UnauthorizedProblem.

(** Modelled from the spec: a problem is a kind and a detail (section 3);
    the field [Type] is written [Type_]. *)
Record ProblemDetails : Type := {
  Type_ : ProblemType;
  Detail : string
}.

(** Modelled from the spec: the constructors of package [probs], which
    is not part of dns.go.  Each sets its kind (section 7) and takes as
    detail its message with the operands of its verbs rendered; a message
    given without operands is the detail as it stands (section 4.4 step
    5). *)
Definition Malformed (detail : string) : ProblemDetails :=
  {| Type_ := MalformedProblem; Detail := detail |}.
Definition DNS (detail : string) : ProblemDetails :=
  {| Type_ := DNSProblem; Detail := detail |}.
Definition UnknownHost (detail : string) : ProblemDetails :=
  {| Type_ := UnknownHostProblem; Detail := detail |}.
Definition Unauthorized (detail : string) : ProblemDetails :=
  {| Type_ := UnauthorizedProblem; Detail := detail |}.

End probs.

(** ** va *)
Module va.

(** Modelled from the spec: the DNS capability of the validation
    authority (section 6), as what each lookup answers for a name.  A
    lookup returns its values together with an error, [None] for [nil];
    the context it is passed plays no part in the result. *)
Record DNSClient : Type := {
  LookupHost : string -> list net.IP * option error;
  LookupTXT : string -> list string * list string * option error
}.

(** Modelled from the spec: the validation authority holds its DNS
    client (section 5); its logger is the trace of events below. *)
Record ValidationAuthorityImpl : Type := {
  dnsClient : DNSClient
}.

(** Operands of a log message, kept as they are passed. *)
Inductive Operand : Type :=
| OpString (s : string)
| OpIdentifier (i : core.AcmeIdentifier)
| OpError (e : error)
| OpAddrs (a : list net.IP).

Inductive Level : Type := Debug | Info.

(** What a call does besides returning: queries of the DNS client and
    messages to the logger. *)
Inductive Event : Type :=
| QueryHost (hostname : string)
| QueryTXT (name : string)
| Log (lvl : Level) (format : string) (operands : list Operand).

(** Computations that append to the trace of events. *)
Definition M (A : Type) : Type := list Event -> A * list Event.

Definition ret {A : Type} (a : A) : M A := fun tr => (a, tr).
Definition bind {A B : Type} (m : M A) (k : A -> M B) : M B :=
  fun tr => let (a, tr') := m tr in k a tr'.
Definition emit (e : Event) : M unit := fun tr => (tt, tr ++ [e]).

Notation "x <- m ;; k" := (bind m (fun x => k))
  (at level 61, m at next level, right associativity).
Notation "m ;;; k" := (bind m (fun _ => k))
  (at level 61, right associativity).

(** [va.dnsClient.LookupHost(ctx, hostname)] *)
Definition lookupHost (va : ValidationAuthorityImpl) (hostname : string)
  : M (list net.IP * option error) :=
  emit (QueryHost hostname) ;;; ret (LookupHost (dnsClient va) hostname).

(** [va.dnsClient.LookupTXT(ctx, name)] *)
Definition lookupTXT (va : ValidationAuthorityImpl) (name : string)
  : M (list string * list string * option error) :=
  emit (QueryTXT name) ;;; ret (LookupTXT (dnsClient va) name).

Definition Debugf (format : string) (operands : list Operand) : M unit :=
  emit (Log Debug format operands).
Definition Infof (format : string) (operands : list Operand) : M unit :=
  emit (Log Info format operands).

(** [getAddrs] *)
Definition getAddrs (va : ValidationAuthorityImpl) (hostname : string)
  : M (option (list net.IP) * option probs.ProblemDetails) :=
  r <- lookupHost va hostname ;;
  let (addrs, err) := r in
  match err with
  | Some err =>
      let problem := probs.DNS (fmt_v err) in
      ret (None, Some problem)
  | None =>
      if Nat.eqb (List.length addrs) 0 then
        ret (None, Some (probs.UnknownHost
                           ("No valid IP addresses found for " +++ fmt_s hostname)))
      else
        Debugf "Resolved addresses for %s: %s" [OpString hostname; OpAddrs addrs] ;;;
        ret (Some addrs, None)
  end.

(** [availableAddresses]: one iteration of the loop appends [addr] to
    [v4] or to [v6]. *)
Definition availableAddresses (allAddrs : list net.IP) : list net.IP * list net.IP :=
  fold_left
    (fun (acc : list net.IP * list net.IP) addr =>
       let (v4, v6) := acc in
       match net.To4 addr with
       | Some _ => (v4 ++ [addr], v6)
       | None => (v4, v6 ++ [addr])
       end)
    allAddrs ([], []).

(** The loop over [txts] of [validateDNS01]: [Some] of what an
    iteration returns, [None] when the loop runs to its end. *)
Fixpoint rangeTXTs (txts : list string) (authorizedKeysDigest : string)
    (authorities : list string) (identifier : core.AcmeIdentifier)
  : option (list core.ValidationRecord) :=
  match txts with
  | [] => None
  | element :: txts' =>
      if subtle.ConstantTimeCompare (bytes_of_string element)
           (bytes_of_string authorizedKeysDigest) =? 1
      then Some [{| core.Authorities := authorities;
                    core.Hostname := core.Value identifier |}]
      else rangeTXTs txts' authorizedKeysDigest authorities identifier
  end.

(** The digest of the key authorization. *)
Definition authorizedKeysDigest (challenge : core.Challenge) : string :=
  let h := sha256.New in
  let h := sha256.Write h (bytes_of_string (core.ProvidedKeyAuthorization challenge)) in
  base64.EncodeToString base64.RawURLEncoding (sha256.Sum h []).

Definition challengeSubdomain (identifier : core.AcmeIdentifier) : string :=
  fmt_s core.DNSPrefix +++ "." +++ fmt_s (core.Value identifier).

(** The record shown in the message of a failed validation: [txts[0]],
    cut after 100 bytes and marked when it is longer. *)
Definition invalidRecord (txts : list string) : string :=
  let invalidRecord := hd "" txts in
  if 100 <? len invalidRecord
  then String.substring 0 100 invalidRecord +++ "..."
  else invalidRecord.

Definition andMore (txts : list string) : string :=
  if 1 <? Z.of_nat (List.length txts)
  then " (and " +++ fmt_d (Z.of_nat (List.length txts) - 1) +++ " more)"
  else "".

(** [validateDNS01] *)
Definition validateDNS01 {F : Formatter} (va : ValidationAuthorityImpl)
    (identifier : core.AcmeIdentifier) (challenge : core.Challenge)
  : M (option (list core.ValidationRecord) * option probs.ProblemDetails) :=
  if negb (core.IdentifierType_eqb (core.Type_ identifier) core.IdentifierDNS) then
    Infof "Identifier type for DNS challenge was not DNS: %s" [OpIdentifier identifier] ;;;
    ret (None, Some (probs.Malformed "Identifier type for DNS was not itself DNS"))
  else
    let authorizedKeysDigest := authorizedKeysDigest challenge in
    let challengeSubdomain := challengeSubdomain identifier in
    r <- lookupTXT va challengeSubdomain ;;
    let '(txts, authorities, err) := r in
    match err with
    | Some err =>
        Infof "Failed to lookup TXT records for %s. err=[%#v] errStr=[%s]"
              [OpIdentifier identifier; OpError err; OpError err] ;;;
        ret (None, Some (probs.DNS (Error err)))
    | None =>
        if Nat.eqb (List.length txts) 0 then
          ret (None, Some (probs.Unauthorized
                             ("No TXT record found at " +++ fmt_s challengeSubdomain)))
        else
          match rangeTXTs txts authorizedKeysDigest authorities identifier with
          | Some records => ret (Some records, None)
          | None =>
              ret (None, Some (probs.Unauthorized
                     ("Incorrect TXT record "
                        +++ fmt_q (replaceInvalidUTF8 (bytes_of_string (invalidRecord txts)))
                        +++ fmt_s (andMore txts)
                        +++ " found at " +++ fmt_s challengeSubdomain)))
          end
    end.

End va.

(** * Vocabulary of the statements *)

(** The pair of results a call returns, and the trace it leaves, when it
    starts from the trace [tr]. *)
Definition returns {A : Type} (m : va.M A) (tr : list va.Event) : A := fst (m tr).
Definition trace {A : Type} (m : va.M A) (tr : list va.Event) : list va.Event := snd (m tr).

(** The queries of the DNS client recorded in a trace. *)
Definition isQuery (e : va.Event) : bool :=
  match e with
  | va.QueryHost _ | va.QueryTXT _ => true
  | va.Log _ _ _ => false
  end.
Definition queries (tr : list va.Event) : list va.Event := filter isQuery tr.

(** An address "parses as IPv4" when [To4] does not return [nil]. *)
Definition isIPv4 (addr : net.IP) : bool :=
  match net.To4 addr with
  | Some _ => true
  | None => false
  end.

Definition IP_eq_dec : forall a b : net.IP, {a = b} + {a <> b} :=
  list_eq_dec Byte.byte_eq_dec.

(** [l1] is [l2] with some elements left out, the others in their order. *)
Inductive subsequence {A : Type} : list A -> list A -> Prop :=
| subsequence_nil : subsequence [] []
| subsequence_keep a l1 l2 : subsequence l1 l2 -> subsequence (a :: l1) (a :: l2)
| subsequence_drop a l1 l2 : subsequence l1 l2 -> subsequence l1 (a :: l2).

(** Base64 as RFC 4648 describes it, on the URL-safe alphabet and without
    padding: each group of three bytes is a 24-bit number written with four
    digits in base 64; a last group of one or two bytes is extended with
    zero bits to 12 or 18 bits and written with two or three digits. *)
Definition digit64 (n : Z) : ascii :=
  nth (Z.to_nat (n mod 64)) (list_ascii_of_string base64.encodeURL) zero.

Fixpoint base64url_unpadded (src : list byte) : string :=
  match src with
  | [] => ""
  | [a] =>
      let n := byte_to_Z a * 16 in
      String (digit64 (n / 64)) (String (digit64 n) "")
  | [a; b] =>
      let n := (byte_to_Z a * 256 + byte_to_Z b) * 4 in
      String (digit64 (n / 4096)) (String (digit64 (n / 64)) (String (digit64 n) ""))
  | a :: b :: c :: src' =>
      let n := byte_to_Z a * 65536 + byte_to_Z b * 256 + byte_to_Z c in
      String (digit64 (n / 262144))
        (String (digit64 (n / 4096))
           (String (digit64 (n / 64))
              (String (digit64 n) (base64url_unpadded src'))))
  end.

(** The reading of the spec's design note on sanitization: the record is
    repaired first and the repaired text is then cut after 100. *)
Definition truncate100 (s : string) : string :=
  if 100 <? len s then String.substring 0 100 s +++ "..." else s.
Definition sanitizedThenTruncated (record : string) : string :=
  truncate100 (replaceInvalidUTF8 (bytes_of_string record)).

(** ** Sample inputs *)

(** [strconv.Quote] on a text of printable runes: the text between double
    quotes, with a backslash before each double quote and backslash. *)
Fixpoint escapePrintable (s : string) : string :=
  match s with
  | EmptyString => EmptyString
  | String c s' =>
      if Ascii.eqb c "034"%char || Ascii.eqb c "\"%char
      then String "\"%char (String c (escapePrintable s'))
      else String c (escapePrintable s')
  end.

Definition quotePrintable : Formatter :=
  {| fmt_q := fun s => String "034"%char (escapePrintable s +++ String "034"%char "") |}.

Definition sampleChallenge : core.Challenge :=
  {| core.ProvidedKeyAuthorization := "LoqXcYV8q5ONbJQxbmR7SCTNo3tiAXDfowyjxAjEuX0.9jg46WB3rR_AHD-EBXdN7cBkH1WOu0tA3M9fm21mqTI" |}.

Definition sampleIdentifier : core.AcmeIdentifier :=
  {| core.Type_ := core.IdentifierDNS; core.Value := "example.com" |}.

Definition otherIdentifier : core.AcmeIdentifier :=
  {| core.Type_ := core.IdentifierOther "ip"; core.Value := "192.0.2.1" |}.

(** A validation authority whose DNS client answers every TXT lookup with
    [txts] from the authority [ns1], and every host lookup with [addrs]. *)
Definition answering (txts : list string) (addrs : list net.IP) : va.ValidationAuthorityImpl :=
  {| va.dnsClient :=
       {| va.LookupHost := fun _ => (addrs, None);
          va.LookupTXT := fun _ => (txts, ["ns1"], None) |} |}.

(** A validation authority whose DNS client fails every lookup. *)
Definition failing (text : string) : va.ValidationAuthorityImpl :=
  {| va.dnsClient :=
       {| va.LookupHost := fun _ => ([], Some (mkError text));
          va.LookupTXT := fun _ => ([], [], Some (mkError text)) |} |}.

(** A well-formed record of 102 bytes whose 100th and 101st bytes are the
    two bytes of U+00E9. *)
Definition splitRecord : string :=
  string_of_list_ascii (repeat "a"%char 99)
    +++ String "195"%char (String "169"%char "z").

(** The addresses 192.0.2.1, 2001:db8::1 and ::ffff:192.0.2.7. *)
Definition sampleV4 : net.IP :=
  [Init.Byte.xc0; Init.Byte.x00; Init.Byte.x02; Init.Byte.x01].
Definition sampleV6 : net.IP :=
  [Init.Byte.x20; Init.Byte.x01; Init.Byte.x0d; Init.Byte.xb8] ++ repeat Init.Byte.x00 11
    ++ [Init.Byte.x01].
Definition sampleMapped : net.IP :=
  repeat Init.Byte.x00 10
    ++ [Init.Byte.xff; Init.Byte.xff; Init.Byte.xc0; Init.Byte.x00; Init.Byte.x02; Init.Byte.x07].

(** ** Proof tools *)

(** The bounds on the second byte of a sequence that starts with [v]. *)
Definition second_lo (v : Z) : Z :=
  if v =? 0xE0 then 0xA0 else if v =? 0xF0 then 0x90 else 0x80.
Definition second_hi (v : Z) : Z :=
  if v =? 0xED then 0x9F else if v =? 0xF4 then 0x8F else 0xBF.

(** [P] holds of every integer from 0 up to [n], excluded. *)
Fixpoint allBelow (n : nat) (P : Z -> bool) : bool :=
  match n with
  | O => true
  | S k => P (Z.of_nat k) && allBelow k P
  end.

Ltac decide_if :=
  repeat match goal with
         | |- context [if ?a <? ?b then _ else _] =>
             destruct (Z.ltb_spec a b); try lia
         | |- context [if ?a =? ?b then _ else _] =>
             destruct (Z.eqb_spec a b); try lia
         | |- context [if ?a <=? ?b then _ else _] =>
             destruct (Z.leb_spec a b); try lia
         end.

Ltac range_false :=
  match goal with
  | |- context [(?a <? ?b) || (?c <? ?d)] =>
      replace ((a <? b) || (c <? d)) with false
        by (symmetry; apply orb_false_iff; split; apply Z.ltb_ge;
            unfold utf8.locb, utf8.hicb; simpl; lia)
  end.

Ltac pow2 :=
  change (2 ^ 32) with 4294967296 in *; change (2 ^ 6) with 64 in *;
  change (2 ^ 12) with 4096 in *; change (2 ^ 18) with 262144 in *.

(** * Properties *)

(** ** Bytes *)

Lemma byte_to_Z_range (b : byte) : 0 <= byte_to_Z b < 256.
Proof.
  unfold byte_to_Z. pose proof (Byte.to_N_bounded b). lia.
Qed.

Lemma byte_to_Z_inj (a b : byte) : byte_to_Z a = byte_to_Z b -> a = b.
Proof.
  unfold byte_to_Z. intros H. apply N2Z.inj in H.
  assert (E : Byte.of_N (Byte.to_N a) = Byte.of_N (Byte.to_N b)) by (now rewrite H).
  rewrite !Byte.of_to_N in E. now inversion E.
Qed.

Lemma byte_to_of_Z (z : Z) : byte_to_Z (byte_of_Z z) = z mod 256.
Proof.
  unfold byte_to_Z, byte_of_Z.
  pose proof (Z.mod_pos_bound z 256 eq_refl) as Hb.
  destruct (Byte.of_N (Z.to_N (z mod 256))) as [b|] eqn:E.
  - apply Byte.to_of_N in E. rewrite E. lia.
  - apply Byte.of_N_None_iff in E. lia.
Qed.

Lemma bytes_of_string_inj (s t : string) :
  bytes_of_string s = bytes_of_string t -> s = t.
Proof.
  unfold bytes_of_string. intros H.
  rewrite <- (string_of_list_byte_of_string s), <- (string_of_list_byte_of_string t).
  now rewrite H.
Qed.

(** ** Constant-time comparison decides equality *)

Lemma small_bits (v : Z) : 0 <= v < 256 <-> (0 <= v /\ forall n, 8 <= n -> Z.testbit v n = false).
Proof.
  split.
  - intros [H0 H1]. split; [assumption|]. intros n Hn.
    destruct (Z.eq_dec v 0) as [->|Hv]; [apply Z.bits_0|].
    apply Z.bits_above_log2; [assumption|].
    assert (Z.log2 v < 8) by (apply Z.log2_lt_pow2; lia). lia.
  - intros [H0 H1]. split; [assumption|].
    destruct (Z.eq_dec v 0) as [->|Hv]; [lia|].
    apply Z.log2_lt_pow2 with (b := 8); [lia|].
    destruct (Z_lt_le_dec (Z.log2 v) 8) as [Hl|Hl]; [assumption|].
    specialize (H1 (Z.log2 v) Hl). rewrite Z.bit_log2 in H1 by lia. discriminate.
Qed.

Lemma lor_lxor_small (v a b : Z) :
  0 <= v < 256 -> 0 <= a < 256 -> 0 <= b < 256 ->
  0 <= Z.lor v (Z.lxor a b) < 256.
Proof.
  intros Hv Ha Hb. apply small_bits in Hv, Ha, Hb. apply small_bits. split.
  - apply Z.lor_nonneg. split; [tauto|]. apply Z.lxor_nonneg. tauto.
  - intros n Hn. rewrite Z.lor_spec, Z.lxor_spec.
    destruct Hv as [_ Hv], Ha as [_ Ha], Hb as [_ Hb].
    now rewrite Hv, Ha, Hb by assumption.
Qed.

Lemma lor_lxor_zero (v a b : Z) :
  Z.lor v (Z.lxor a b) = 0 <-> v = 0 /\ a = b.
Proof.
  rewrite Z.lor_eq_0_iff, Z.lxor_eq_0_iff. tauto.
Qed.

Lemma fold_accumulate (l : list (byte * byte)) (v : Z) :
  0 <= v < 256 ->
  let r := fold_left
             (fun v ab => Z.lor v (Z.lxor (byte_to_Z (fst ab)) (byte_to_Z (snd ab)))) l v in
  0 <= r < 256 /\ (r = 0 <-> v = 0 /\ map fst l = map snd l).
Proof.
  revert v. induction l as [|[a b] l IH]; intros v Hv; simpl.
  - split; [assumption|]. tauto.
  - pose proof (byte_to_Z_range a) as Ha. pose proof (byte_to_Z_range b) as Hb.
    destruct (IH _ (lor_lxor_small v _ _ Hv Ha Hb)) as [Hr Hz].
    split; [exact Hr|]. rewrite Hz, lor_lxor_zero. split.
    + intros [[-> E] El]. apply byte_to_Z_inj in E. subst b. now rewrite El.
    + intros [-> E]. inversion E. subst. tauto.
Qed.

Lemma ConstantTimeByteEq_zero (v : Z) :
  0 <= v < 256 -> (subtle.ConstantTimeByteEq v 0 = 1 <-> v = 0).
Proof.
  intros Hv. unfold subtle.ConstantTimeByteEq. rewrite Z.lxor_0_r.
  rewrite Z.shiftr_div_pow2 by lia.
  destruct (Z.eq_dec v 0) as [->|Hn].
  - split; [reflexivity|]. intros _. reflexivity.
  - split; [|contradiction]. intros H. exfalso.
    rewrite Z.mod_small in H by lia.
    rewrite Z.div_small in H by lia. discriminate.
Qed.

Lemma combine_fst_snd {A B : Type} (x : list A) (y : list B) :
  List.length x = List.length y ->
  map fst (combine x y) = x /\ map snd (combine x y) = y.
Proof.
  revert y. induction x as [|a x IH]; intros [|b y] H; simpl in *; try discriminate.
  - split; reflexivity.
  - injection H as H. destruct (IH y H) as [E1 E2]. now rewrite E1, E2.
Qed.

Lemma ConstantTimeCompare_eq (x y : list byte) :
  subtle.ConstantTimeCompare x y = 1 <-> x = y.
Proof.
  unfold subtle.ConstantTimeCompare.
  destruct (Nat.eqb (List.length x) (List.length y)) eqn:El; simpl.
  - apply Nat.eqb_eq in El.
    destruct (fold_accumulate (combine x y) 0 ltac:(lia)) as [Hr Hz].
    fold (subtle.accumulate x y) in Hr, Hz.
    rewrite (ConstantTimeByteEq_zero _ Hr), Hz.
    destruct (combine_fst_snd x y El) as [-> ->]. tauto.
  - apply Nat.eqb_neq in El. split; [discriminate|].
    intros ->. contradiction.
Qed.

Lemma ConstantTimeCompare_strings (s t : string) :
  (subtle.ConstantTimeCompare (bytes_of_string s) (bytes_of_string t) =? 1) = true <-> s = t.
Proof.
  rewrite Z.eqb_eq, ConstantTimeCompare_eq. split.
  - apply bytes_of_string_inj.
  - now intros ->.
Qed.

(** ** Address classification *)

Lemma filter_subsequence {A : Type} (f : A -> bool) (l : list A) :
  subsequence (filter f l) l.
Proof.
  induction l as [|a l IH]; simpl.
  - constructor.
  - destruct (f a); now constructor.
Qed.

Lemma filter_split_permutation {A : Type} (f : A -> bool) (l : list A) :
  Permutation (filter f l ++ filter (fun a => negb (f a)) l) l.
Proof.
  induction l as [|a l IH]; simpl; [constructor|].
  destruct (f a); simpl.
  - now constructor.
  - symmetry. apply Permutation_cons_app. now symmetry.
Qed.

Lemma availableAddresses_loop (l v4 v6 : list net.IP) :
  fold_left
    (fun (acc : list net.IP * list net.IP) addr =>
       let (v4, v6) := acc in
       match net.To4 addr with
       | Some _ => (v4 ++ [addr], v6)
       | None => (v4, v6 ++ [addr])
       end) l (v4, v6)
  = (v4 ++ filter isIPv4 l, v6 ++ filter (fun a => negb (isIPv4 a)) l).
Proof.
  revert v4 v6. induction l as [|a l IH]; intros v4 v6; simpl.
  - now rewrite !app_nil_r.
  - assert (E : isIPv4 a = match net.To4 a with Some _ => true | None => false end)
      by reflexivity.
    destruct (net.To4 a); rewrite E, IH, <- app_assoc; reflexivity.
Qed.

Lemma availableAddresses_filter (allAddrs : list net.IP) :
  va.availableAddresses allAddrs
  = (filter isIPv4 allAddrs, filter (fun a => negb (isIPv4 a)) allAddrs).
Proof.
  unfold va.availableAddresses. now rewrite availableAddresses_loop.
Qed.

(** C8.  [availableAddresses] is total and puts every address of its input
    in exactly one of its two results: in [v4] when [To4] accepts it, in
    [v6] otherwise.  Each result keeps the order of the input, the two
    together are a rearrangement of the input, and every address occurs in
    them as many times as in the input. *)
Theorem availableAddresses_partition (allAddrs : list net.IP) :
  let v4 := fst (va.availableAddresses allAddrs) in
  let v6 := snd (va.availableAddresses allAddrs) in
  (forall a, In a v4 <-> In a allAddrs /\ net.To4 a <> None) /\
  (forall a, In a v6 <-> In a allAddrs /\ net.To4 a = None) /\
  (forall a, In a allAddrs -> (In a v4 /\ ~ In a v6) \/ (In a v6 /\ ~ In a v4)) /\
  subsequence v4 allAddrs /\
  subsequence v6 allAddrs /\
  Permutation (v4 ++ v6) allAddrs /\
  (forall a, (count_occ IP_eq_dec v4 a + count_occ IP_eq_dec v6 a
              = count_occ IP_eq_dec allAddrs a)%nat).
Proof.
  rewrite availableAddresses_filter. cbn zeta. simpl fst. simpl snd.
  assert (H4 : forall a, In a (filter isIPv4 allAddrs) <-> In a allAddrs /\ net.To4 a <> None).
  { intros a. rewrite filter_In. unfold isIPv4.
    destruct (net.To4 a); split; intros [? ?]; split; congruence. }
  assert (H6 : forall a, In a (filter (fun a => negb (isIPv4 a)) allAddrs)
                         <-> In a allAddrs /\ net.To4 a = None).
  { intros a. rewrite filter_In. unfold isIPv4.
    destruct (net.To4 a); simpl; split; intros [? ?]; split; congruence. }
  split; [exact H4|]. split; [exact H6|].
  split; [|split; [|split; [|split]]].
  - intros a Ha. rewrite H4, H6. destruct (net.To4 a) eqn:E.
    + left. split; [split; congruence|]. intros [_ ?]. congruence.
    + right. split; [tauto|]. intros [_ ?]. congruence.
  - apply filter_subsequence.
  - apply filter_subsequence.
  - apply filter_split_permutation.
  - intros a. rewrite <- count_occ_app.
    apply Permutation_count_occ. apply filter_split_permutation.
Qed.

Lemma availableAddresses_partition_witness :
  va.availableAddresses [sampleV6; sampleV4; sampleMapped; sampleV4]
  = ([sampleV4; sampleMapped; sampleV4], [sampleV6])
  /\ Permutation
       (fst (va.availableAddresses [sampleV6; sampleV4; sampleMapped; sampleV4])
          ++ snd (va.availableAddresses [sampleV6; sampleV4; sampleMapped; sampleV4]))
       [sampleV6; sampleV4; sampleMapped; sampleV4].
Proof.
  split; [reflexivity|].
  exact (proj1 (proj2 (proj2 (proj2 (proj2 (proj2
           (availableAddresses_partition [sampleV6; sampleV4; sampleMapped; sampleV4]))))))).
Defined.

(** ** Address resolution *)

(** C7.  [getAddrs] fails with a DNS problem carrying the text of the
    error when the lookup fails, fails with an UnknownHost problem naming
    the host when the lookup returns no address, and otherwise returns the
    addresses as the lookup gave them. *)
Theorem getAddrs_results (va : va.ValidationAuthorityImpl) (hostname : string)
    (tr : list va.Event) :
  (forall addrs err,
      va.LookupHost (va.dnsClient va) hostname = (addrs, Some err) ->
      returns (va.getAddrs va hostname) tr
      = (None, Some {| probs.Type_ := probs.DNSProblem; probs.Detail := Error err |})) /\
  (va.LookupHost (va.dnsClient va) hostname = ([], None) ->
   returns (va.getAddrs va hostname) tr
   = (None, Some {| probs.Type_ := probs.UnknownHostProblem;
                    probs.Detail := "No valid IP addresses found for " +++ hostname |})) /\
  (forall addrs,
      addrs <> [] ->
      va.LookupHost (va.dnsClient va) hostname = (addrs, None) ->
      returns (va.getAddrs va hostname) tr = (Some addrs, None)).
Proof.
  unfold returns, va.getAddrs, va.bind, va.lookupHost, va.emit, va.ret. simpl.
  repeat split.
  - intros addrs err ->. reflexivity.
  - intros ->. reflexivity.
  - intros addrs Hne ->. destruct addrs; [contradiction|]. reflexivity.
Qed.

Lemma getAddrs_results_witness :
  returns (va.getAddrs (failing "SERVFAIL") "example.com") []
  = (None, Some {| probs.Type_ := probs.DNSProblem; probs.Detail := "SERVFAIL" |})
  /\ returns (va.getAddrs (answering [] []) "example.com") []
     = (None, Some {| probs.Type_ := probs.UnknownHostProblem;
                      probs.Detail := "No valid IP addresses found for example.com" |})
  /\ returns (va.getAddrs (answering [] [sampleV6; sampleV4]) "example.com") []
     = (Some [sampleV6; sampleV4], None).
Proof.
  split; [|split].
  - apply (proj1 (getAddrs_results (failing "SERVFAIL") "example.com" [])
             [] (mkError "SERVFAIL")).
    reflexivity.
  - apply (proj1 (proj2 (getAddrs_results (answering [] []) "example.com" []))).
    reflexivity.
  - apply (proj2 (proj2 (getAddrs_results (answering [] [sampleV6; sampleV4])
                           "example.com" []))).
    + discriminate.
    + reflexivity.
Defined.

(** ** The TXT loop *)

Lemma IdentifierType_eqb_DNS (t : core.IdentifierType) :
  core.IdentifierType_eqb t core.IdentifierDNS = true <-> t = core.IdentifierDNS.
Proof.
  destruct t; simpl; split; intros H; try reflexivity; discriminate.
Qed.

Lemma rangeTXTs_match (txts : list string) (digest : string) (authorities : list string)
    (identifier : core.AcmeIdentifier) :
  In digest txts ->
  va.rangeTXTs txts digest authorities identifier
  = Some [{| core.Authorities := authorities; core.Hostname := core.Value identifier |}].
Proof.
  induction txts as [|element txts IH]; simpl; [contradiction|].
  intros [-> | Hin].
  - now rewrite (proj2 (ConstantTimeCompare_strings digest digest) eq_refl).
  - destruct (_ =? 1); [reflexivity | now apply IH].
Qed.

Lemma rangeTXTs_no_match (txts : list string) (digest : string) (authorities : list string)
    (identifier : core.AcmeIdentifier) :
  ~ In digest txts ->
  va.rangeTXTs txts digest authorities identifier = None.
Proof.
  induction txts as [|element txts IH]; simpl; [reflexivity|].
  intros Hn.
  destruct (_ =? 1) eqn:E.
  - apply ConstantTimeCompare_strings in E. subst. tauto.
  - apply IH. tauto.
Qed.

Lemma rangeTXTs_cases (txts : list string) (digest : string) (authorities : list string)
    (identifier : core.AcmeIdentifier) :
  (In digest txts /\
   va.rangeTXTs txts digest authorities identifier
   = Some [{| core.Authorities := authorities; core.Hostname := core.Value identifier |}])
  \/ (~ In digest txts /\ va.rangeTXTs txts digest authorities identifier = None).
Proof.
  destruct (in_dec string_dec digest txts) as [Hin | Hn].
  - left. split; [assumption | now apply rangeTXTs_match].
  - right. split; [assumption | now apply rangeTXTs_no_match].
Qed.

(** How [validateDNS01] runs once the identifier has passed the type
    check. *)
Lemma validateDNS01_DNS {F : Formatter} (va : va.ValidationAuthorityImpl)
    (identifier : core.AcmeIdentifier) (challenge : core.Challenge) (tr : list va.Event) :
  core.Type_ identifier = core.IdentifierDNS ->
  va.validateDNS01 va identifier challenge tr
  = let name := va.challengeSubdomain identifier in
    let tr' := tr ++ [va.QueryTXT name] in
    let '(txts, authorities, err) := va.LookupTXT (va.dnsClient va) name in
    match err with
    | Some err =>
        ((None, Some (probs.DNS (Error err))),
         tr' ++ [va.Log va.Info "Failed to lookup TXT records for %s. err=[%#v] errStr=[%s]"
                   [va.OpIdentifier identifier; va.OpError err; va.OpError err]])
    | None =>
        match txts with
        | [] => ((None, Some (probs.Unauthorized ("No TXT record found at " +++ name))), tr')
        | _ :: _ =>
            match va.rangeTXTs txts (va.authorizedKeysDigest challenge) authorities
                    identifier with
            | Some records => ((Some records, None), tr')
            | None =>
                ((None, Some (probs.Unauthorized
                    ("Incorrect TXT record "
                       +++ fmt_q (replaceInvalidUTF8 (bytes_of_string (va.invalidRecord txts)))
                       +++ va.andMore txts +++ " found at " +++ name))), tr')
            end
        end
    end.
Proof.
  intros Ht. unfold va.validateDNS01. rewrite Ht. simpl negb. cbv iota.
  unfold va.bind, va.lookupTXT, va.emit, va.ret, va.Infof, va.bind, va.emit, fmt_s.
  cbn zeta.
  destruct (va.LookupTXT (va.dnsClient va) (va.challengeSubdomain identifier))
    as [[txts authorities] [err|]]; [reflexivity|].
  destruct txts as [|element txts]; [reflexivity|].
  cbn [Nat.eqb List.length].
  destruct (va.rangeTXTs _ _ _ _); reflexivity.
Qed.

(** ** Validation of a DNS-01 challenge *)

(** C1.  When the TXT lookup at the challenge subdomain succeeds and one
    of its values is the expected proof, [validateDNS01] succeeds with
    exactly one record, whose hostname is the identifier's value and whose
    authorities are those of the lookup; it makes that one query and logs
    nothing.  Whatever the input, a successful validation returns one
    record. *)
Theorem validateDNS01_first_match {F : Formatter} (va : va.ValidationAuthorityImpl)
    (identifier : core.AcmeIdentifier) (challenge : core.Challenge) (tr : list va.Event)
    (txts authorities : list string) :
  core.Type_ identifier = core.IdentifierDNS ->
  va.LookupTXT (va.dnsClient va) (va.challengeSubdomain identifier)
  = (txts, authorities, None) ->
  In (va.authorizedKeysDigest challenge) txts ->
  returns (va.validateDNS01 va identifier challenge) tr
  = (Some [{| core.Authorities := authorities; core.Hostname := core.Value identifier |}],
     None)
  /\ trace (va.validateDNS01 va identifier challenge) tr
     = tr ++ [va.QueryTXT (va.challengeSubdomain identifier)]
  /\ (forall va' identifier' challenge' tr' records,
         fst (returns (va.validateDNS01 va' identifier' challenge') tr') = Some records ->
         List.length records = 1%nat).
Proof.
  intros Ht Hl Hin. unfold returns, trace.
  rewrite (validateDNS01_DNS _ _ _ _ Ht). cbn zeta. rewrite Hl.
  rewrite (rangeTXTs_match _ _ authorities identifier Hin).
  destruct txts as [|element txts]; [contradiction|].
  split; [reflexivity|]. split; [reflexivity|].
  clear. intros va identifier challenge tr records.
  destruct (core.IdentifierType_eqb (core.Type_ identifier) core.IdentifierDNS) eqn:Ht.
  - apply IdentifierType_eqb_DNS in Ht.
    rewrite (validateDNS01_DNS _ _ _ _ Ht). cbn zeta.
    destruct (va.LookupTXT _ _) as [[txts authorities] [err|]]; [discriminate|].
    destruct txts as [|element txts]; [discriminate|].
    destruct (rangeTXTs_cases (element :: txts) (va.authorizedKeysDigest challenge)
                authorities identifier) as [[_ ->] | [_ ->]]; simpl.
    + intros E. injection E as <-. reflexivity.
    + discriminate.
  - unfold va.validateDNS01. rewrite Ht. discriminate.
Qed.

Lemma validateDNS01_first_match_witness :
  returns (@va.validateDNS01 quotePrintable
             (answering ["bogus"; va.authorizedKeysDigest sampleChallenge] [])
             sampleIdentifier sampleChallenge) []
  = (Some [{| core.Authorities := ["ns1"]; core.Hostname := "example.com" |}], None).
Proof.
  apply (@validateDNS01_first_match quotePrintable
           (answering ["bogus"; va.authorizedKeysDigest sampleChallenge] [])
           sampleIdentifier sampleChallenge []
           ["bogus"; va.authorizedKeysDigest sampleChallenge] ["ns1"]).
  - reflexivity.
  - reflexivity.
  - right. left. reflexivity.
Defined.

(** ** Well-formed UTF-8 *)

Lemma first_cases (v : Z) :
  0 <= v < 256 ->
  utf8.first v = utf8.as_ /\ v < 0x80 \/
  utf8.first v = utf8.xx /\ 0x80 <= v \/
  (utf8.first v = utf8.s1 \/ utf8.first v = utf8.s2 \/ utf8.first v = utf8.s3 \/
   utf8.first v = utf8.s4 \/ utf8.first v = utf8.s5 \/ utf8.first v = utf8.s6 \/
   utf8.first v = utf8.s7) /\ 0x80 <= v.
Proof.
  intros Hv. unfold utf8.first.
  repeat match goal with
         | |- context [if ?c then _ else _] => destruct c eqn:?
         end;
  repeat match goal with
         | H : (_ <? _) = true |- _ => apply Z.ltb_lt in H
         | H : (_ <? _) = false |- _ => apply Z.ltb_ge in H
         | H : (_ =? _) = true |- _ => apply Z.eqb_eq in H
         | H : (_ =? _) = false |- _ => apply Z.eqb_neq in H
         end; try (left; split; [reflexivity|lia]);
  try (right; left; split; [reflexivity|lia]);
  right; right; (split; [tauto|lia]).
Qed.

Lemma sequenceAt_app (p q : list byte) (n : nat) :
  utf8.sequenceAt p = Some n ->
  utf8.sequenceAt (p ++ q) = Some n /\ (1 <= n <= List.length p)%nat.
Proof.
  destruct p as [|b0 p]; [discriminate|].
  unfold utf8.sequenceAt. rewrite <- app_comm_cons.
  destruct (byte_to_Z b0 <? utf8.RuneSelf) eqn:E0.
  { intros H. injection H as <-. simpl. split; [reflexivity|lia]. }
  apply Z.ltb_ge in E0. unfold utf8.RuneSelf in E0.
  destruct (first_cases (byte_to_Z b0) (byte_to_Z_range b0)) as [[_ H]|[[Hx _]|[Hx _]]];
    [lia | rewrite Hx; discriminate |].
  assert (Hs : exists x, utf8.first (byte_to_Z b0) = x /\ x <> utf8.xx /\
                         (2 <= Z.to_nat (Z.land x 7) <= 4)%nat).
  { destruct Hx as [H|[H|[H|[H|[H|[H|H]]]]]]; rewrite H; eexists; repeat split;
      try discriminate; vm_compute; lia. }
  destruct Hs as (x & -> & Hne & Hsz).
  apply Z.eqb_neq in Hne. rewrite Hne.
  set (size := Z.to_nat (Z.land x 7)) in *.
  destruct (List.length (b0 :: p) <? size)%nat eqn:El; [discriminate|].
  apply Nat.ltb_ge in El.
  assert (El' : (List.length (b0 :: p ++ q) <? size)%nat = false).
  { apply Nat.ltb_ge. simpl in *. rewrite length_app. lia. }
  rewrite El'.
  assert (N1 : nth 1 (b0 :: p ++ q) Init.Byte.x00 = nth 1 (b0 :: p) Init.Byte.x00).
  { simpl. simpl in El. apply app_nth1. lia. }
  rewrite N1.
  destruct (_ || _); [discriminate|].
  destruct (size =? 2)%nat eqn:E2.
  { intros H. injection H as <-. split; [reflexivity|lia]. }
  apply Nat.eqb_neq in E2.
  assert (N2 : nth 2 (b0 :: p ++ q) Init.Byte.x00 = nth 2 (b0 :: p) Init.Byte.x00).
  { simpl in El. change (nth 2 (b0 :: p ++ q) Init.Byte.x00) with (nth 1 (p ++ q) Init.Byte.x00).
    change (nth 2 (b0 :: p) Init.Byte.x00) with (nth 1 p Init.Byte.x00).
    apply app_nth1. lia. }
  rewrite N2.
  destruct (_ || _); [discriminate|].
  destruct (size =? 3)%nat eqn:E3.
  { intros H. injection H as <-. split; [reflexivity|lia]. }
  apply Nat.eqb_neq in E3.
  assert (N3 : nth 3 (b0 :: p ++ q) Init.Byte.x00 = nth 3 (b0 :: p) Init.Byte.x00).
  { simpl in El. change (nth 3 (b0 :: p ++ q) Init.Byte.x00) with (nth 2 (p ++ q) Init.Byte.x00).
    change (nth 3 (b0 :: p) Init.Byte.x00) with (nth 2 p Init.Byte.x00).
    apply app_nth1. lia. }
  rewrite N3.
  destruct (_ || _); [discriminate|].
  intros H. injection H as <-. split; [reflexivity|lia].
Qed.

Lemma validFrom_app (p q : list byte) (k : nat) :
  (k <= List.length p)%nat ->
  utf8.validFrom k p = true -> utf8.Valid q = true -> utf8.validFrom k (p ++ q) = true.
Proof.
  revert k. induction p as [|b p IH]; intros k Hk Hp Hq.
  - simpl in Hk. assert (k = 0%nat) by lia. subst. exact Hq.
  - rewrite <- app_comm_cons. destruct k as [|k].
    + cbn [utf8.validFrom] in *.
      destruct (utf8.sequenceAt (b :: p)) as [size|] eqn:Es; [|discriminate].
      destruct (sequenceAt_app (b :: p) q size Es) as [Es' Hsz].
      rewrite <- app_comm_cons in Es'. rewrite Es'.
      apply IH; [simpl in Hsz; lia | assumption | assumption].
    + cbn [utf8.validFrom] in *. apply IH; [simpl in Hk; lia | assumption | assumption].
Qed.

Lemma Valid_app (p q : list byte) :
  utf8.Valid p = true -> utf8.Valid q = true -> utf8.Valid (p ++ q) = true.
Proof.
  intros Hp Hq. apply validFrom_app; [lia | exact Hp | exact Hq].
Qed.

Lemma first_lead (v : Z) :
  (0xC2 <= v <= 0xDF -> utf8.first v = utf8.s1) /\
  (v = 0xE0 -> utf8.first v = utf8.s2) /\
  (0xE1 <= v <= 0xEC \/ 0xEE <= v <= 0xEF -> utf8.first v = utf8.s3) /\
  (v = 0xED -> utf8.first v = utf8.s4) /\
  (v = 0xF0 -> utf8.first v = utf8.s5) /\
  (0xF1 <= v <= 0xF3 -> utf8.first v = utf8.s6) /\
  (v = 0xF4 -> utf8.first v = utf8.s7).
Proof.
  unfold utf8.first. repeat split; intros H; decide_if; reflexivity.
Qed.

Lemma Valid_two (b0 b1 : byte) :
  0xC2 <= byte_to_Z b0 <= 0xDF ->
  0x80 <= byte_to_Z b1 <= 0xBF ->
  utf8.Valid [b0; b1] = true.
Proof.
  intros H0 H1. unfold utf8.Valid. cbn [utf8.validFrom utf8.sequenceAt].
  unfold utf8.RuneSelf. destruct (Z.ltb_spec (byte_to_Z b0) 128); [lia|].
  rewrite (proj1 (first_lead _) H0). cbn -[Z.ltb byte_to_Z].
  range_false. reflexivity.
Qed.

Lemma Valid_three (b0 b1 b2 : byte) :
  0xE0 <= byte_to_Z b0 <= 0xEF ->
  second_lo (byte_to_Z b0) <= byte_to_Z b1 <= second_hi (byte_to_Z b0) ->
  0x80 <= byte_to_Z b2 <= 0xBF ->
  utf8.Valid [b0; b1; b2] = true.
Proof.
  intros H0 H1 H2. unfold utf8.Valid. cbn [utf8.validFrom utf8.sequenceAt].
  unfold utf8.RuneSelf. destruct (Z.ltb_spec (byte_to_Z b0) 128); [lia|].
  destruct (first_lead (byte_to_Z b0)) as (_ & F2 & F3 & F4 & _).
  unfold second_lo, second_hi in H1.
  destruct (Z.eq_dec (byte_to_Z b0) 0xE0) as [E|NE0].
  { rewrite (F2 E). rewrite E in H1. cbn -[Z.ltb byte_to_Z] in *.
    do 2 range_false. reflexivity. }
  destruct (Z.eq_dec (byte_to_Z b0) 0xED) as [E|NED].
  { rewrite (F4 E). rewrite E in H1. cbn -[Z.ltb byte_to_Z] in *.
    do 2 range_false. reflexivity. }
  rewrite F3 by lia.
  destruct (Z.eqb_spec (byte_to_Z b0) 224); [lia|].
  destruct (Z.eqb_spec (byte_to_Z b0) 240); [lia|].
  destruct (Z.eqb_spec (byte_to_Z b0) 237); [lia|].
  destruct (Z.eqb_spec (byte_to_Z b0) 244); [lia|].
  cbn -[Z.ltb byte_to_Z] in *.
  do 2 range_false. reflexivity.
Qed.

Lemma Valid_four (b0 b1 b2 b3 : byte) :
  0xF0 <= byte_to_Z b0 <= 0xF4 ->
  second_lo (byte_to_Z b0) <= byte_to_Z b1 <= second_hi (byte_to_Z b0) ->
  0x80 <= byte_to_Z b2 <= 0xBF ->
  0x80 <= byte_to_Z b3 <= 0xBF ->
  utf8.Valid [b0; b1; b2; b3] = true.
Proof.
  intros H0 H1 H2 H3. unfold utf8.Valid. cbn [utf8.validFrom utf8.sequenceAt].
  unfold utf8.RuneSelf. destruct (Z.ltb_spec (byte_to_Z b0) 128); [lia|].
  destruct (first_lead (byte_to_Z b0)) as (_ & _ & _ & _ & F5 & F6 & F7).
  unfold second_lo, second_hi in H1.
  destruct (Z.eq_dec (byte_to_Z b0) 0xF0) as [E|NE0].
  { rewrite (F5 E). rewrite E in H1. cbn -[Z.ltb byte_to_Z] in *.
    do 3 range_false. reflexivity. }
  destruct (Z.eq_dec (byte_to_Z b0) 0xF4) as [E|NED].
  { rewrite (F7 E). rewrite E in H1. cbn -[Z.ltb byte_to_Z] in *.
    do 3 range_false. reflexivity. }
  rewrite F6 by lia.
  destruct (Z.eqb_spec (byte_to_Z b0) 224); [lia|].
  destruct (Z.eqb_spec (byte_to_Z b0) 240); [lia|].
  destruct (Z.eqb_spec (byte_to_Z b0) 237); [lia|].
  destruct (Z.eqb_spec (byte_to_Z b0) 244); [lia|].
  cbn -[Z.ltb byte_to_Z] in *.
  do 3 range_false. reflexivity.
Qed.

Lemma allBelow_spec (n : nat) (P : Z -> bool) :
  allBelow n P = true -> forall x, 0 <= x < Z.of_nat n -> P x = true.
Proof.
  induction n as [|k IH]; intros H x Hx; [lia|].
  simpl in H. apply andb_true_iff in H as [Hk Hr].
  destruct (Z.eq_dec x (Z.of_nat k)) as [->|Hne]; [exact Hk|].
  apply IH; [exact Hr | lia].
Qed.

Lemma lor_prefix (c y : Z) :
  (c = 0x80 /\ 0 <= y < 64) \/ (c = 0xC0 /\ 0 <= y < 32) \/
  (c = 0xE0 /\ 0 <= y < 16) \/ (c = 0xF0 /\ 0 <= y < 8) ->
  Z.lor c y = c + y.
Proof.
  intros [[-> H] | [[-> H] | [[-> H] | [-> H]]]];
    apply Z.eqb_eq;
    [ apply (allBelow_spec 64 (fun y => Z.lor 0x80 y =? 0x80 + y))
    | apply (allBelow_spec 32 (fun y => Z.lor 0xC0 y =? 0xC0 + y))
    | apply (allBelow_spec 16 (fun y => Z.lor 0xE0 y =? 0xE0 + y))
    | apply (allBelow_spec 8 (fun y => Z.lor 0xF0 y =? 0xF0 + y)) ];
    (reflexivity || (simpl Z.of_nat; lia)).
Qed.

Lemma lor_mod_256 (a b : Z) : Z.lor a b mod 256 = Z.lor (a mod 256) (b mod 256).
Proof.
  change 256 with (2 ^ 8). rewrite <- !Z.land_ones by lia.
  apply Z.land_lor_distr_l.
Qed.

Lemma continuation (x : Z) :
  byte_to_Z (byte_of_Z (Z.lor utf8.tx (Z.land x utf8.maskx))) = 0x80 + x mod 64.
Proof.
  rewrite byte_to_of_Z. unfold utf8.tx, utf8.maskx.
  change 0x3F with (Z.ones 6). rewrite Z.land_ones by lia. change (2 ^ 6) with 64.
  pose proof (Z.mod_pos_bound x 64 eq_refl).
  rewrite lor_prefix by (left; split; [reflexivity|assumption]).
  apply Z.mod_small. lia.
Qed.

Lemma lead (c r k : Z) :
  (c = 0xC0 /\ 0 <= r mod 2 ^ 32 / 2 ^ k < 32) \/
  (c = 0xE0 /\ 0 <= r mod 2 ^ 32 / 2 ^ k < 16) \/
  (c = 0xF0 /\ 0 <= r mod 2 ^ 32 / 2 ^ k < 8) ->
  k = 6 \/ k = 12 \/ k = 18 ->
  byte_to_Z (byte_of_Z (Z.lor c (Z.shiftr r k))) = c + r mod 2 ^ 32 / 2 ^ k.
Proof.
  intros Hc Hk. rewrite byte_to_of_Z, lor_mod_256, Z.shiftr_div_pow2 by lia.
  assert (E : (r / 2 ^ k) mod 256 = r mod 2 ^ 32 / 2 ^ k).
  { destruct Hk as [-> | [-> | ->]]; destruct Hc as [[_ H]|[[_ H]|[_ H]]];
      revert H; change (2 ^ 32) with 4294967296; change (2 ^ 6) with 64;
      change (2 ^ 12) with 4096; change (2 ^ 18) with 262144; intros H;
      Z.div_mod_to_equations; lia. }
  rewrite E.
  destruct Hc as [[-> H] | [[-> H] | [-> H]]]; change (_ mod 256) with 0xC0 || change (_ mod 256) with 0xE0 || change (_ mod 256) with 0xF0.
  all: rewrite lor_prefix by tauto; reflexivity.
Qed.

Lemma AppendRune_valid (r : Z) : utf8.Valid (utf8.AppendRune r) = true.
Proof.
  unfold utf8.AppendRune.
  unfold utf8.rune1Max, utf8.rune2Max, utf8.rune3Max, utf8.MaxRune,
    utf8.surrogateMin, utf8.surrogateMax, utf8.t2, utf8.t3, utf8.t4.
  set (i := r mod 2 ^ 32).
  assert (Hi : 0 <= i < 2 ^ 32) by (apply Z.mod_pos_bound; lia).
  destruct (Z.leb_spec i 127) as [H1|H1].
  { unfold utf8.Valid, utf8.validFrom, utf8.sequenceAt, utf8.RuneSelf.
    rewrite byte_to_of_Z.
    destruct (Z.ltb_spec (r mod 256) 128) as [_|H]; [reflexivity|].
    exfalso. subst i. pow2. Z.div_mod_to_equations. lia. }
  destruct (Z.leb_spec i 2047) as [H2|H2].
  { apply Valid_two.
    - rewrite (lead 0xC0 r 6); fold i; pow2; [| left; split; [reflexivity|] | tauto];
        Z.div_mod_to_equations; lia.
    - rewrite continuation. Z.div_mod_to_equations. lia. }
  destruct (Z.ltb_spec 1114111 i) as [H3|H3]; [reflexivity|].
  destruct (Z.leb_spec 55296 i) as [H4|H4];
    [destruct (Z.leb_spec i 57343) as [H5|H5]; [reflexivity|] |];
    cbn [orb andb].
  - (* above the surrogates *)
    destruct (Z.leb_spec i 65535) as [H6|H6].
    + apply Valid_three.
      * rewrite (lead 0xE0 r 12); fold i; pow2; [| right; left; split; [reflexivity|] | tauto];
          Z.div_mod_to_equations; lia.
      * rewrite (lead 0xE0 r 12); fold i; pow2;
          [| right; left; split; [reflexivity|]; Z.div_mod_to_equations; lia | tauto].
        rewrite continuation, Z.shiftr_div_pow2 by lia. pow2. unfold second_lo, second_hi. decide_if;
          subst i; Z.div_mod_to_equations; lia.
      * rewrite continuation. Z.div_mod_to_equations. lia.
    + apply Valid_four.
      * rewrite (lead 0xF0 r 18); fold i; pow2; [| right; right; split; [reflexivity|] | tauto];
          Z.div_mod_to_equations; lia.
      * rewrite (lead 0xF0 r 18); fold i; pow2;
          [| right; right; split; [reflexivity|]; Z.div_mod_to_equations; lia | tauto].
        rewrite continuation, Z.shiftr_div_pow2 by lia. pow2. unfold second_lo, second_hi. decide_if;
          subst i; Z.div_mod_to_equations; lia.
      * rewrite continuation. Z.div_mod_to_equations. lia.
      * rewrite continuation. Z.div_mod_to_equations. lia.
  - (* below the surrogates *)
    destruct (Z.leb_spec i 65535) as [H6|H6]; [|lia].
    apply Valid_three.
    + rewrite (lead 0xE0 r 12); fold i; pow2; [| right; left; split; [reflexivity|] | tauto];
        Z.div_mod_to_equations; lia.
    + rewrite (lead 0xE0 r 12); fold i; pow2;
          [| right; left; split; [reflexivity|]; Z.div_mod_to_equations; lia | tauto].
        rewrite continuation, Z.shiftr_div_pow2 by lia. pow2. unfold second_lo, second_hi. decide_if;
        subst i; Z.div_mod_to_equations; lia.
    + rewrite continuation. Z.div_mod_to_equations. lia.
Qed.

Lemma Valid_flat_map_AppendRune (rs : list Z) :
  utf8.Valid (flat_map utf8.AppendRune rs) = true.
Proof.
  induction rs as [|r rs IH]; [reflexivity|].
  simpl. apply Valid_app; [apply AppendRune_valid | exact IH].
Qed.

Lemma replaceInvalidUTF8_valid (input : list byte) :
  utf8.Valid (bytes_of_string (replaceInvalidUTF8 input)) = true.
Proof.
  unfold replaceInvalidUTF8, bytes_of_string, string_of_bytes.
  destruct (utf8.Valid input) eqn:E; rewrite list_byte_of_string_of_list_byte.
  - exact E.
  - apply Valid_flat_map_AppendRune.
Qed.

(** ** Failures of the validation *)

(** C2.  A failed TXT lookup gives a DNS problem whose detail is the text
    of the error; a lookup that succeeds with no value gives an
    Unauthorized problem whose detail names the subdomain queried.  The two
    kinds differ. *)
Theorem validateDNS01_lookup_outcomes {F : Formatter} (va : va.ValidationAuthorityImpl)
    (identifier : core.AcmeIdentifier) (challenge : core.Challenge) (tr : list va.Event) :
  core.Type_ identifier = core.IdentifierDNS ->
  (forall txts authorities err,
      va.LookupTXT (va.dnsClient va) ("_acme-challenge." +++ core.Value identifier)
      = (txts, authorities, Some err) ->
      returns (va.validateDNS01 va identifier challenge) tr
      = (None, Some {| probs.Type_ := probs.DNSProblem; probs.Detail := Error err |})) /\
  (forall authorities,
      va.LookupTXT (va.dnsClient va) ("_acme-challenge." +++ core.Value identifier)
      = ([], authorities, None) ->
      returns (va.validateDNS01 va identifier challenge) tr
      = (None, Some {| probs.Type_ := probs.UnauthorizedProblem;
                       probs.Detail := "No TXT record found at _acme-challenge."
                                         +++ core.Value identifier |})) /\
  probs.DNSProblem <> probs.UnauthorizedProblem.
Proof.
  intros Ht. unfold returns. rewrite (validateDNS01_DNS _ _ _ _ Ht). cbn zeta.
  change (va.challengeSubdomain identifier) with ("_acme-challenge." +++ core.Value identifier).
  split; [|split].
  - intros txts authorities err ->. reflexivity.
  - intros authorities ->. reflexivity.
  - discriminate.
Qed.

Lemma validateDNS01_lookup_outcomes_witness :
  returns (@va.validateDNS01 quotePrintable (failing "SERVFAIL") sampleIdentifier
             sampleChallenge) []
  = (None, Some {| probs.Type_ := probs.DNSProblem; probs.Detail := "SERVFAIL" |})
  /\ returns (@va.validateDNS01 quotePrintable (answering [] []) sampleIdentifier
                sampleChallenge) []
     = (None, Some {| probs.Type_ := probs.UnauthorizedProblem;
                      probs.Detail := "No TXT record found at _acme-challenge.example.com" |}).
Proof.
  split.
  - apply (proj1 (@validateDNS01_lookup_outcomes quotePrintable (failing "SERVFAIL")
                    sampleIdentifier sampleChallenge [] eq_refl) [] [] (mkError "SERVFAIL")).
    reflexivity.
  - apply (proj1 (proj2 (@validateDNS01_lookup_outcomes quotePrintable (answering [] [])
                           sampleIdentifier sampleChallenge [] eq_refl)) ["ns1"]).
    reflexivity.
Defined.

(** C5, as the code has it.  For an identifier whose type is not DNS,
    [validateDNS01] fails with a Malformed problem whose detail is
    "Identifier type for DNS was not itself DNS"; it logs one message and
    queries the DNS client not at all. *)
Theorem validateDNS01_not_DNS {F : Formatter} (va : va.ValidationAuthorityImpl)
    (identifier : core.AcmeIdentifier) (challenge : core.Challenge) (tr : list va.Event) :
  core.Type_ identifier <> core.IdentifierDNS ->
  returns (va.validateDNS01 va identifier challenge) tr
  = (None, Some {| probs.Type_ := probs.MalformedProblem;
                   probs.Detail := "Identifier type for DNS was not itself DNS" |})
  /\ trace (va.validateDNS01 va identifier challenge) tr
     = tr ++ [va.Log va.Info "Identifier type for DNS challenge was not DNS: %s"
                [va.OpIdentifier identifier]]
  /\ queries (trace (va.validateDNS01 va identifier challenge) tr) = queries tr.
Proof.
  intros Ht. unfold returns, trace, va.validateDNS01.
  destruct (core.IdentifierType_eqb (core.Type_ identifier) core.IdentifierDNS) eqn:E.
  - apply IdentifierType_eqb_DNS in E. contradiction.
  - simpl. split; [reflexivity|]. split; [reflexivity|].
    unfold queries. rewrite filter_app. simpl. apply app_nil_r.
Qed.

Lemma validateDNS01_not_DNS_witness :
  returns (@va.validateDNS01 quotePrintable (answering ["bogus"] []) otherIdentifier
             sampleChallenge) []
  = (None, Some {| probs.Type_ := probs.MalformedProblem;
                   probs.Detail := "Identifier type for DNS was not itself DNS" |})
  /\ queries (trace (@va.validateDNS01 quotePrintable (answering ["bogus"] [])
                       otherIdentifier sampleChallenge) []) = [].
Proof.
  pose proof (@validateDNS01_not_DNS quotePrintable (answering ["bogus"] []) otherIdentifier
                sampleChallenge []) as H.
  destruct H as (H1 & _ & H3).
  - discriminate.
  - split; [exact H1 | exact H3].
Defined.

(** C5, as the spec words the detail: it is refuted at an identifier of
    another type, where the detail is not the spec's text. *)
Lemma validateDNS01_not_DNS_detail_differs :
  returns (@va.validateDNS01 quotePrintable (answering ["bogus"] []) otherIdentifier
             sampleChallenge) []
  <> (None, Some {| probs.Type_ := probs.MalformedProblem;
                    probs.Detail := "identifier type for DNS challenge was not DNS" |}).
Proof.
  discriminate.
Qed.

(** ** One result or the other *)

(** C10.  [validateDNS01] and [getAddrs] each return either no sequence
    and a problem, or a non-empty sequence and no problem. *)
Theorem one_result_or_the_other {F : Formatter} (va : va.ValidationAuthorityImpl)
    (identifier : core.AcmeIdentifier) (challenge : core.Challenge) (hostname : string)
    (tr : list va.Event) :
  ((exists problem,
       returns (va.validateDNS01 va identifier challenge) tr = (None, Some problem)) \/
   (exists records,
       records <> [] /\
       returns (va.validateDNS01 va identifier challenge) tr = (Some records, None))) /\
  ((exists problem, returns (va.getAddrs va hostname) tr = (None, Some problem)) \/
   (exists addrs,
       addrs <> [] /\ returns (va.getAddrs va hostname) tr = (Some addrs, None))).
Proof.
  split.
  - unfold returns.
    destruct (core.IdentifierType_eqb (core.Type_ identifier) core.IdentifierDNS) eqn:Ht.
    + apply IdentifierType_eqb_DNS in Ht.
      rewrite (validateDNS01_DNS _ _ _ _ Ht). cbn zeta.
      destruct (va.LookupTXT _ _) as [[txts authorities] [err|]];
        [left; eexists; reflexivity|].
      destruct txts as [|element txts]; [left; eexists; reflexivity|].
      destruct (rangeTXTs_cases (element :: txts) (va.authorizedKeysDigest challenge)
                  authorities identifier) as [[_ ->] | [_ ->]].
      * right. eexists. split; [|reflexivity]. discriminate.
      * left. eexists. reflexivity.
    + left. unfold va.validateDNS01. rewrite Ht. eexists. reflexivity.
  - unfold returns, va.getAddrs, va.bind, va.lookupHost, va.emit, va.ret. simpl.
    destruct (va.LookupHost _ _) as [addrs [err|]]; [left; eexists; reflexivity|].
    destruct addrs as [|addr addrs]; [left; eexists; reflexivity|].
    right. eexists. split; [|reflexivity]. discriminate.
Qed.

(** ** The message of a failed match *)

Lemma substring_length (n : nat) (s : string) :
  String.length (String.substring 0 n s) = Nat.min n (String.length s).
Proof.
  revert s. induction n as [|n IH]; intros [|c s]; simpl; try reflexivity.
  now rewrite IH.
Qed.

Lemma append_length (s t : string) :
  String.length (s +++ t) = (String.length s + String.length t)%nat.
Proof.
  induction s as [|c s IH]; simpl; [reflexivity | now rewrite IH].
Qed.

Lemma invalidRecord_length (txts : list string) :
  (String.length (va.invalidRecord txts) <= 103)%nat.
Proof.
  unfold va.invalidRecord, len.
  destruct (Z.ltb_spec 100 (Z.of_nat (String.length (hd "" txts)))) as [H|H].
  - rewrite append_length, substring_length. cbn [String.length]. lia.
  - lia.
Qed.

Lemma andMore_rest (first : string) (rest : list string) :
  va.andMore (first :: rest)
  = match rest with
    | [] => ""
    | _ :: _ => " (and " +++ fmt_d (Z.of_nat (List.length rest)) +++ " more)"
    end.
Proof.
  unfold va.andMore. destruct rest as [|second rest]; [reflexivity|].
  replace (Z.of_nat (List.length (first :: second :: rest)) - 1)
    with (Z.of_nat (List.length (second :: rest))) by (simpl List.length; lia).
  destruct (Z.ltb_spec 1 (Z.of_nat (List.length (first :: second :: rest)))) as [_|H];
    [reflexivity|].
  simpl List.length in H. lia.
Qed.

(** C3.  When the lookup returns values none of which is the expected
    proof, [validateDNS01] fails with an Unauthorized problem whose detail
    shows the first value: cut after its first 100 bytes and followed by
    "..." when it is longer, otherwise whole; then repaired to well-formed
    UTF-8 and quoted; followed, when there are N more values, by
    " (and N more)", and by the subdomain queried. *)
Theorem validateDNS01_no_match {F : Formatter} (va : va.ValidationAuthorityImpl)
    (identifier : core.AcmeIdentifier) (challenge : core.Challenge) (tr : list va.Event)
    (first : string) (rest authorities : list string) :
  core.Type_ identifier = core.IdentifierDNS ->
  va.LookupTXT (va.dnsClient va) (va.challengeSubdomain identifier)
  = (first :: rest, authorities, None) ->
  ~ In (va.authorizedKeysDigest challenge) (first :: rest) ->
  let shown :=
    if (100 <? String.length first)%nat
    then String.substring 0 100 first +++ "..."
    else first in
  let more :=
    match rest with
    | [] => ""
    | _ :: _ => " (and " +++ fmt_d (Z.of_nat (List.length rest)) +++ " more)"
    end in
  returns (va.validateDNS01 va identifier challenge) tr
  = (None, Some {| probs.Type_ := probs.UnauthorizedProblem;
                   probs.Detail :=
                     "Incorrect TXT record "
                       +++ fmt_q (replaceInvalidUTF8 (bytes_of_string shown))
                       +++ more +++ " found at _acme-challenge."
                       +++ core.Value identifier |})
  /\ ((100 < String.length first)%nat ->
      String.length (String.substring 0 100 first) = 100%nat)
  /\ utf8.Valid (bytes_of_string (replaceInvalidUTF8 (bytes_of_string shown))) = true.
Proof.
  intros Ht Hl Hn shown more. unfold returns.
  rewrite (validateDNS01_DNS _ _ _ _ Ht). cbn zeta. rewrite Hl.
  rewrite (rangeTXTs_no_match _ _ authorities identifier Hn).
  rewrite andMore_rest. fold more.
  assert (Es : va.invalidRecord (first :: rest) = shown).
  { unfold va.invalidRecord, shown, len. simpl hd.
    destruct (Z.ltb_spec 100 (Z.of_nat (String.length first)));
      destruct (Nat.ltb_spec 100 (String.length first)); try reflexivity; lia. }
  rewrite Es. split; [reflexivity|]. split.
  - intros H. rewrite substring_length. lia.
  - apply replaceInvalidUTF8_valid.
Qed.

Lemma validateDNS01_no_match_witness :
  returns (@va.validateDNS01 quotePrintable (answering ["aaa"; "bbb"; "ccc"] [])
             sampleIdentifier sampleChallenge) []
  = (None, Some {| probs.Type_ := probs.UnauthorizedProblem;
                   probs.Detail :=
                     "Incorrect TXT record " +++ String "034"%char "aaa"
                       +++ String "034"%char " (and 2 more) found at _acme-challenge.example.com" |}).
Proof.
  apply (@validateDNS01_no_match quotePrintable (answering ["aaa"; "bbb"; "ccc"] [])
           sampleIdentifier sampleChallenge [] "aaa" ["bbb"; "ccc"] ["ns1"]).
  - reflexivity.
  - reflexivity.
  - vm_compute. intros [H | [H | [H | H]]]; try discriminate H. exact H.
Defined.

(** C4, as the spec has it: the detail would show the record repaired
    first and cut afterwards.  At a lookup returning the one well-formed
    record [splitRecord] it does not: the cut falls inside the two bytes
    of U+00E9, the text handed to the repair is not well-formed, and the
    detail shows U+FFFD where the cut fell. *)
Lemma sanitize_before_truncate_fails :
  utf8.Valid (bytes_of_string splitRecord) = true
  /\ utf8.Valid (bytes_of_string (va.invalidRecord [splitRecord])) = false
  /\ returns (@va.validateDNS01 quotePrintable (answering [splitRecord] [])
                sampleIdentifier sampleChallenge) []
     = (None, Some (probs.Unauthorized
          ("Incorrect TXT record "
             +++ String "034"%char
                   (string_of_list_ascii (repeat "a"%char 99)
                      +++ String "239"%char (String "191"%char (String "189"%char "...")))
             +++ String "034"%char " found at _acme-challenge.example.com")))
  /\ returns (@va.validateDNS01 quotePrintable (answering [splitRecord] [])
                sampleIdentifier sampleChallenge) []
     <> (None, Some (probs.Unauthorized
           ("Incorrect TXT record "
              +++ @fmt_q quotePrintable (sanitizedThenTruncated splitRecord)
              +++ " found at _acme-challenge.example.com"))).
Proof.
  split; [vm_compute; reflexivity|].
  split; [vm_compute; reflexivity|].
  split; [vm_compute; reflexivity|].
  vm_compute. intros H. discriminate H.
Qed.

(** C4, as the code has it.  In the detail of a failed match the first
    record is cut first, on its raw bytes, and repaired afterwards: the
    text that is quoted is the repair of the cut record with its marker.
    That text is always well-formed UTF-8, whatever the record and
    wherever the cut fell, and it is the record itself when the record is
    well-formed and no longer than 100 bytes. *)
Theorem validateDNS01_truncates_then_sanitizes {F : Formatter}
    (va : va.ValidationAuthorityImpl) (identifier : core.AcmeIdentifier)
    (challenge : core.Challenge) (tr : list va.Event)
    (first : string) (rest authorities : list string) :
  core.Type_ identifier = core.IdentifierDNS ->
  va.LookupTXT (va.dnsClient va) (va.challengeSubdomain identifier)
  = (first :: rest, authorities, None) ->
  ~ In (va.authorizedKeysDigest challenge) (first :: rest) ->
  exists shown : string,
    returns (va.validateDNS01 va identifier challenge) tr
    = (None, Some (probs.Unauthorized
         ("Incorrect TXT record " +++ fmt_q shown +++ va.andMore (first :: rest)
            +++ " found at " +++ va.challengeSubdomain identifier)))
    /\ shown = replaceInvalidUTF8 (bytes_of_string (truncate100 first))
    /\ utf8.Valid (bytes_of_string shown) = true
    /\ (len first <= 100 -> utf8.Valid (bytes_of_string first) = true -> shown = first).
Proof.
  intros Ht Hl Hn. unfold returns.
  rewrite (validateDNS01_DNS _ _ _ _ Ht). cbn zeta. rewrite Hl.
  rewrite (rangeTXTs_no_match _ _ authorities identifier Hn).
  eexists. split; [reflexivity|].
  change (va.invalidRecord (first :: rest)) with (truncate100 first).
  split; [reflexivity|]. split; [apply replaceInvalidUTF8_valid|].
  intros Hlen Hv. unfold truncate100.
  destruct (Z.ltb_spec 100 (len first)); [lia|].
  unfold replaceInvalidUTF8. rewrite Hv.
  apply string_of_list_byte_of_string.
Qed.

Lemma validateDNS01_truncates_then_sanitizes_witness :
  exists shown : string,
    returns (@va.validateDNS01 quotePrintable (answering [splitRecord] [])
               sampleIdentifier sampleChallenge) []
    = (None, Some (probs.Unauthorized
         ("Incorrect TXT record " +++ @fmt_q quotePrintable shown
            +++ va.andMore [splitRecord]
            +++ " found at " +++ va.challengeSubdomain sampleIdentifier)))
    /\ shown = replaceInvalidUTF8 (bytes_of_string (truncate100 splitRecord))
    /\ utf8.Valid (bytes_of_string shown) = true
    /\ (len splitRecord <= 100 -> utf8.Valid (bytes_of_string splitRecord) = true ->
        shown = splitRecord).
Proof.
  apply (@validateDNS01_truncates_then_sanitizes quotePrintable
           (answering [splitRecord] []) sampleIdentifier sampleChallenge []
           splitRecord [] ["ns1"]).
  - reflexivity.
  - reflexivity.
  - vm_compute. intros [H | H]; [discriminate H | exact H].
Defined.

(** ** The digest of the key authorization *)

Example Sum256_abc :
  map byte_to_Z (sha256.Sum256 (bytes_of_string "abc"))
  = [0xba; 0x78; 0x16; 0xbf; 0x8f; 0x01; 0xcf; 0xea; 0x41; 0x41; 0x40; 0xde; 0x5d; 0xae;
     0x22; 0x23; 0xb0; 0x03; 0x61; 0xa3; 0x96; 0x17; 0x7a; 0x9c; 0xb4; 0x10; 0xff; 0x61;
     0xf2; 0x00; 0x15; 0xad].
Proof. vm_compute. reflexivity. Qed.

Example Sum256_empty :
  map byte_to_Z (sha256.Sum256 [])
  = [0xe3; 0xb0; 0xc4; 0x42; 0x98; 0xfc; 0x1c; 0x14; 0x9a; 0xfb; 0xf4; 0xc8; 0x99; 0x6f;
     0xb9; 0x24; 0x27; 0xae; 0x41; 0xe4; 0x64; 0x9b; 0x93; 0x4c; 0xa4; 0x95; 0x99; 0x1b;
     0x78; 0x52; 0xb8; 0x55].
Proof. vm_compute. reflexivity. Qed.

Example Sum256_two_blocks :
  map byte_to_Z
    (sha256.Sum256 (bytes_of_string "abcdbcdecdefdefgefghfghighijhijkijkljklmklmnlmnomnopnopq"))
  = [0x24; 0x8d; 0x6a; 0x61; 0xd2; 0x06; 0x38; 0xb8; 0xe5; 0xc0; 0x26; 0x93; 0x0c; 0x3e;
     0x60; 0x39; 0xa3; 0x3c; 0xe4; 0x59; 0x64; 0xff; 0x21; 0x67; 0xf6; 0xec; 0xed; 0xd4;
     0x19; 0xdb; 0x06; 0xc1].
Proof. vm_compute. reflexivity. Qed.

Example EncodeToString_foobar :
  base64.EncodeToString base64.RawURLEncoding (bytes_of_string "foobar") = "Zm9vYmFy"
  /\ base64.EncodeToString base64.RawURLEncoding (bytes_of_string "fooba") = "Zm9vYmE"
  /\ base64.EncodeToString base64.RawURLEncoding (bytes_of_string "foob") = "Zm9vYg"
  /\ base64.EncodeToString base64.URLEncoding (bytes_of_string "foob") = "Zm9vYg==".
Proof. repeat split. Qed.

(** The loop of [blockGeneric] stops by itself: any fuel that covers the
    length of the input gives the same state. *)
Lemma block_fuel (f1 f2 : nat) (h : list Z) (p : list byte) :
  (List.length p <= f1)%nat -> (List.length p <= f2)%nat ->
  sha256.block f1 h p = sha256.block f2 h p.
Proof.
  revert f2 h p. induction f1 as [|f1 IH]; intros f2 h p H1 H2.
  - destruct p; [|simpl in H1; lia]. destruct f2; reflexivity.
  - destruct f2 as [|f2].
    + destruct p; [|simpl in H2; lia]. reflexivity.
    + cbn [sha256.block].
      destruct (Nat.ltb_spec (List.length p) sha256.chunk) as [Hs|Hs]; [reflexivity|].
      apply IH; rewrite length_skipn; unfold sha256.chunk in *; lia.
Qed.

(** The padded message is a whole number of chunks. *)
Lemma padding_chunks (data : list byte) :
  (List.length (data ++ sha256.padding (Z.of_nat (List.length data)))
   mod sha256.chunk = 0)%nat.
Proof.
  unfold sha256.padding, sha256.be_bytes, sha256.chunk.
  rewrite !length_app, length_map, length_rev, length_seq, length_firstn.
  set (n := List.length data).
  cbn [List.length]. rewrite repeat_length.
  set (t := if Z.of_nat n mod 64 <? 56 then _ else _).
  assert (Ht : 1 <= t <= 64 /\ (Z.of_nat n + t + 8) mod 64 = 0).
  { subst t. destruct (Z.ltb_spec (Z.of_nat n mod 64) 56);
      Z.div_mod_to_equations; lia. }
  destruct Ht as [Ht Hm].
  rewrite Nat.min_l by lia.
  apply Nat2Z.inj. rewrite Nat2Z.inj_mod.
  rewrite !Nat2Z.inj_add, Z2Nat.id by lia.
  simpl Z.of_nat at 2 3. rewrite Z.add_assoc. exact Hm.
Qed.

Lemma list_ind3 {A : Type} (P : list A -> Prop) :
  P [] -> (forall a, P [a]) -> (forall a b, P [a; b]) ->
  (forall a b c l, P l -> P (a :: b :: c :: l)) ->
  forall l, P l.
Proof.
  intros H0 H1 H2 H3.
  assert (H : forall n l, (List.length l <= n)%nat -> P l).
  { induction n as [|n IH]; intros l Hl.
    - destruct l; [exact H0 | simpl in Hl; lia].
    - destruct l as [|a [|b [|c l]]]; auto.
      apply H3. apply IH. simpl in Hl. lia. }
  intros l. apply (H (List.length l)). lia.
Qed.

Lemma lor_disjoint (x y k : Z) :
  0 <= k -> 0 <= y < 2 ^ k -> Z.lor (x * 2 ^ k) y = x * 2 ^ k + y.
Proof.
  intros Hk Hy. rewrite <- Z.add_lor_land.
  assert (E : Z.land (x * 2 ^ k) y = 0).
  { apply Z.bits_inj'. intros n Hn. rewrite Z.land_spec, Z.bits_0.
    destruct (Z_lt_le_dec n k) as [Hlt|Hge].
    - now rewrite Z.mul_pow2_bits_low.
    - rewrite <- (Z.mod_small y (2 ^ k)) by assumption.
      rewrite Z.mod_pow2_bits_high by lia. apply andb_false_r. }
  rewrite E. lia.
Qed.

Lemma sextet_digit (pad : option ascii) (v : Z) :
  base64.sextet (base64.WithPadding base64.URLEncoding pad) v = digit64 v.
Proof.
  unfold base64.sextet, digit64. cbn [base64.encode base64.WithPadding base64.URLEncoding].
  change 0x3F with (Z.ones 6). rewrite Z.land_ones by lia. change (2 ^ 6) with 64.
  pose proof (Z.mod_pos_bound v 64 eq_refl) as Hb.
  set (k := v mod 64) in *.
  pose proof (allBelow_spec 64
                (fun k => match String.get (Z.to_nat k) base64.encodeURL with
                          | Some c => Ascii.eqb c (nth (Z.to_nat k)
                                         (list_ascii_of_string base64.encodeURL) zero)
                          | None => false
                          end) eq_refl k Hb) as H.
  cbv beta in H. destruct (String.get (Z.to_nat k) base64.encodeURL); [|discriminate].
  now apply Ascii.eqb_eq.
Qed.

Lemma word24 (a b c : byte) :
  Z.lor (Z.lor (Z.shiftl (byte_to_Z a) 16) (Z.shiftl (byte_to_Z b) 8)) (byte_to_Z c)
  = byte_to_Z a * 65536 + byte_to_Z b * 256 + byte_to_Z c.
Proof.
  pose proof (byte_to_Z_range a). pose proof (byte_to_Z_range b).
  pose proof (byte_to_Z_range c).
  rewrite !Z.shiftl_mul_pow2 by lia.
  replace (byte_to_Z a * 2 ^ 16) with ((byte_to_Z a * 2 ^ 8) * 2 ^ 8) by lia.
  rewrite <- !Z.shiftl_mul_pow2 by lia. rewrite <- Z.shiftl_lor.
  rewrite !Z.shiftl_mul_pow2 by lia.
  rewrite (lor_disjoint (byte_to_Z a) (byte_to_Z b) 8) by lia.
  rewrite lor_disjoint by lia. lia.
Qed.

Lemma word16 (a b : byte) :
  Z.lor (Z.shiftl (byte_to_Z a) 16) (Z.shiftl (byte_to_Z b) 8)
  = (byte_to_Z a * 256 + byte_to_Z b) * 256.
Proof.
  pose proof (word24 a b Init.Byte.x00) as H.
  change (byte_to_Z Init.Byte.x00) with 0 in H. rewrite Z.lor_0_r in H. lia.
Qed.

Lemma digit64_mod (n m : Z) : n mod 64 = m mod 64 -> digit64 n = digit64 m.
Proof. unfold digit64. now intros ->. Qed.

Lemma RawURLEncoding_unpadded (src : list byte) :
  base64.EncodeToString base64.RawURLEncoding src = base64url_unpadded src.
Proof.
  unfold base64.RawURLEncoding.
  induction src as [|a|a b|a b c src IH] using list_ind3.
  - reflexivity.
  - cbn [base64.EncodeToString base64url_unpadded]. rewrite !sextet_digit.
    pose proof (byte_to_Z_range a).
    rewrite !Z.shiftr_div_pow2, Z.shiftl_mul_pow2 by lia.
    f_equal; [|f_equal]; apply digit64_mod;
      change (2 ^ 16) with 65536; change (2 ^ 18) with 262144; change (2 ^ 12) with 4096;
      Z.div_mod_to_equations; lia.
  - cbn [base64.EncodeToString base64url_unpadded]. rewrite !sextet_digit.
    pose proof (byte_to_Z_range a). pose proof (byte_to_Z_range b).
    rewrite word16. rewrite !Z.shiftr_div_pow2 by lia.
    f_equal; [|f_equal; [|f_equal]]; apply digit64_mod;
      change (2 ^ 6) with 64; change (2 ^ 18) with 262144; change (2 ^ 12) with 4096;
      Z.div_mod_to_equations; lia.
  - cbn [base64.EncodeToString base64url_unpadded]. rewrite !sextet_digit, IH.
    rewrite word24. rewrite !Z.shiftr_div_pow2 by lia.
    reflexivity.
Qed.

Lemma digit64_alphabet (n : Z) :
  In (digit64 n) (list_ascii_of_string base64.encodeURL).
Proof.
  unfold digit64. apply nth_In.
  pose proof (Z.mod_pos_bound n 64 eq_refl).
  change (List.length (list_ascii_of_string base64.encodeURL)) with 64%nat. lia.
Qed.

Lemma base64url_unpadded_alphabet (src : list byte) (c : ascii) :
  In c (list_ascii_of_string (base64url_unpadded src)) ->
  In c (list_ascii_of_string base64.encodeURL).
Proof.
  induction src as [|a|a b|a b c' src IH] using list_ind3;
    cbn [base64url_unpadded list_ascii_of_string In]; intros H;
    repeat (destruct H as [<- | H]; [apply digit64_alphabet|]); auto; contradiction.
Qed.

Lemma base64url_unpadded_length (src : list byte) :
  String.length (base64url_unpadded src) = ((4 * List.length src + 2) / 3)%nat.
Proof.
  induction src as [|a|a b|a b c' src IH] using list_ind3;
    cbn [base64url_unpadded String.length List.length]; try reflexivity.
  rewrite IH.
  replace (4 * S (S (S (List.length src))) + 2)%nat
    with ((4 * List.length src + 2) + 4 * 3)%nat by lia.
  rewrite Nat.div_add by lia. lia.
Qed.

Lemma round_length (s : list Z) (kw : Z * Z) :
  List.length s = 8%nat -> List.length (sha256.round s kw) = 8%nat.
Proof.
  intros H. do 9 (destruct s as [|? s]; try discriminate H). reflexivity.
Qed.

Lemma rounds_length (kws : list (Z * Z)) (s : list Z) :
  List.length s = 8%nat -> List.length (fold_left sha256.round kws s) = 8%nat.
Proof.
  revert s. induction kws as [|kw kws IH]; intros s H; simpl; [exact H|].
  apply IH. now apply round_length.
Qed.

Lemma block1_length (h : list Z) (p : list byte) :
  List.length h = 8%nat -> List.length (sha256.block1 h p) = 8%nat.
Proof.
  intros H. unfold sha256.block1.
  rewrite length_map, length_combine, rounds_length by exact H. lia.
Qed.

Lemma block_length (fuel : nat) (h : list Z) (p : list byte) :
  List.length h = 8%nat -> List.length (sha256.block fuel h p) = 8%nat.
Proof.
  revert h p. induction fuel as [|fuel IH]; intros h p H; simpl; [exact H|].
  destruct (_ <? _)%nat; [exact H|]. apply IH. now apply block1_length.
Qed.

Lemma Sum256_length (data : list byte) :
  List.length (sha256.Sum256 data) = sha256.Size.
Proof.
  unfold sha256.Sum256.
  set (p := data ++ _).
  pose proof (block_length (List.length p) sha256.init p eq_refl) as H.
  destruct (sha256.block (List.length p) sha256.init p) as [|h0 [|h1 [|h2 [|h3 [|h4 [|h5 [|h6 [|h7 [|? ?]]]]]]]]];
    try discriminate H.
  reflexivity.
Qed.

(** C6.  The expected proof is the URL-safe base64 encoding, without
    padding, of the SHA-256 digest of the bytes of the key authorization:
    43 characters of the URL-safe alphabet, none of them the padding
    character.  It is a total function of the key authorization alone. *)
Theorem authorizedKeysDigest_base64url_sha256 (challenge : core.Challenge) :
  va.authorizedKeysDigest challenge
  = base64url_unpadded
      (sha256.Sum256 (bytes_of_string (core.ProvidedKeyAuthorization challenge)))
  /\ String.length (va.authorizedKeysDigest challenge) = 43%nat
  /\ (forall c, In c (list_ascii_of_string (va.authorizedKeysDigest challenge)) ->
                In c (list_ascii_of_string base64.encodeURL) /\ c <> base64.StdPadding)
  /\ (forall challenge',
         core.ProvidedKeyAuthorization challenge' = core.ProvidedKeyAuthorization challenge ->
         va.authorizedKeysDigest challenge' = va.authorizedKeysDigest challenge).
Proof.
  assert (E : va.authorizedKeysDigest challenge
              = base64url_unpadded
                  (sha256.Sum256 (bytes_of_string (core.ProvidedKeyAuthorization challenge)))).
  { unfold va.authorizedKeysDigest, sha256.Sum, sha256.Write, sha256.New.
    cbn [app]. apply RawURLEncoding_unpadded. }
  split; [exact E|]. split; [|split].
  - rewrite E, base64url_unpadded_length, Sum256_length. reflexivity.
  - intros c Hc. rewrite E in Hc. apply base64url_unpadded_alphabet in Hc.
    split; [exact Hc|]. intros ->. vm_compute in Hc.
    repeat (destruct Hc as [Hc | Hc]; [discriminate Hc|]). exact Hc.
  - intros challenge' H. unfold va.authorizedKeysDigest. now rewrite H.
Qed.

Lemma authorizedKeysDigest_base64url_sha256_witness :
  String.length (va.authorizedKeysDigest sampleChallenge) = 43%nat
  /\ ~ In base64.StdPadding (list_ascii_of_string (va.authorizedKeysDigest sampleChallenge)).
Proof.
  destruct (authorizedKeysDigest_base64url_sha256 sampleChallenge) as (_ & Hl & Ha & _).
  split; [exact Hl|].
  intros Hin. destruct (Ha _ Hin) as [_ Hne]. exact (Hne eq_refl).
Defined.

(** * Further properties of the code *)

(** ** Outcomes of the validation *)

(** X1.  [validateDNS01] returns records exactly when the identifier is of
    type DNS, the TXT lookup at the challenge subdomain succeeds, and one
    of its values is the digest of the key authorization: no other input
    validates. *)
Theorem validateDNS01_success_iff {F : Formatter} (va : va.ValidationAuthorityImpl)
    (identifier : core.AcmeIdentifier) (challenge : core.Challenge) (tr : list va.Event) :
  (exists records,
      fst (returns (va.validateDNS01 va identifier challenge) tr) = Some records)
  <-> (core.Type_ identifier = core.IdentifierDNS /\
       exists txts authorities,
         va.LookupTXT (va.dnsClient va) (va.challengeSubdomain identifier)
         = (txts, authorities, None) /\
         In (va.authorizedKeysDigest challenge) txts).
Proof.
  unfold returns.
  destruct (core.IdentifierType_eqb (core.Type_ identifier) core.IdentifierDNS) eqn:Ht.
  - apply IdentifierType_eqb_DNS in Ht.
    rewrite (validateDNS01_DNS _ _ _ _ Ht). cbn zeta.
    destruct (va.LookupTXT _ _) as [[txts authorities] [err|]].
    + split; [intros [r H]; discriminate H|].
      intros (_ & t & a & H & _). discriminate H.
    + destruct txts as [|element txts].
      * split; [intros [r H]; discriminate H|].
        intros (_ & t & a & H & Hin). injection H as <- <-. contradiction.
      * destruct (rangeTXTs_cases (element :: txts) (va.authorizedKeysDigest challenge)
                    authorities identifier) as [[Hin ->] | [Hn ->]].
        -- split; [|intros _; eexists; reflexivity].
           intros _. split; [exact Ht|]. exists (element :: txts), authorities.
           split; [reflexivity | exact Hin].
        -- split; [intros [r H]; discriminate H|].
           intros (_ & t & a & H & Hin). injection H as <- <-. contradiction.
  - unfold va.validateDNS01. rewrite Ht. simpl.
    split; [intros [r H]; discriminate H|].
    intros [H _]. apply IdentifierType_eqb_DNS in H. congruence.
Qed.

(** X2.  The kind of the problem [validateDNS01] returns tells its cause:
    Malformed exactly for an identifier that is not DNS, DNS exactly when
    the lookup returned an error, Unauthorized exactly when the lookup
    succeeded; it is never UnknownHost. *)
Theorem validateDNS01_problem_kinds {F : Formatter} (va : va.ValidationAuthorityImpl)
    (identifier : core.AcmeIdentifier) (challenge : core.Challenge) (tr : list va.Event)
    (problem : probs.ProblemDetails) :
  snd (returns (va.validateDNS01 va identifier challenge) tr) = Some problem ->
  (probs.Type_ problem = probs.MalformedProblem
   <-> core.Type_ identifier <> core.IdentifierDNS) /\
  (probs.Type_ problem = probs.DNSProblem
   <-> core.Type_ identifier = core.IdentifierDNS /\
       snd (va.LookupTXT (va.dnsClient va) (va.challengeSubdomain identifier)) <> None) /\
  (probs.Type_ problem = probs.UnauthorizedProblem
   <-> core.Type_ identifier = core.IdentifierDNS /\
       snd (va.LookupTXT (va.dnsClient va) (va.challengeSubdomain identifier)) = None) /\
  probs.Type_ problem <> probs.UnknownHostProblem.
Proof.
  unfold returns.
  destruct (core.IdentifierType_eqb (core.Type_ identifier) core.IdentifierDNS) eqn:Ht.
  - apply IdentifierType_eqb_DNS in Ht.
    rewrite (validateDNS01_DNS _ _ _ _ Ht). cbn zeta.
    destruct (va.LookupTXT _ _) as [[txts authorities] [err|]]; cbn [snd].
    + intros H. injection H as <-. cbn.
      repeat split; try discriminate; try tauto; try (intros [_ ?]; discriminate).
    + destruct txts as [|element txts].
      * intros H. injection H as <-. cbn.
        repeat split; try discriminate; try tauto; try (intros [_ ?]; congruence).
      * destruct (va.rangeTXTs _ _ _ _); [discriminate|].
        intros H. injection H as <-. cbn.
        repeat split; try discriminate; try tauto; try (intros [_ ?]; congruence).
  - unfold va.validateDNS01. rewrite Ht. simpl. intros H. injection H as <-. cbn.
    assert (Hne : core.Type_ identifier <> core.IdentifierDNS).
    { intros E. apply IdentifierType_eqb_DNS in E. congruence. }
    repeat split; try discriminate; try tauto; try (intros [? _]; contradiction).
Qed.

Lemma validateDNS01_problem_kinds_witness :
  probs.Type_ (probs.Unauthorized "No TXT record found at _acme-challenge.example.com")
  = probs.UnauthorizedProblem
  <-> core.Type_ sampleIdentifier = core.IdentifierDNS /\
      snd (va.LookupTXT (va.dnsClient (answering [] []))
             (va.challengeSubdomain sampleIdentifier)) = None.
Proof.
  exact (proj1 (proj2 (proj2
    (@validateDNS01_problem_kinds quotePrintable (answering [] []) sampleIdentifier
       sampleChallenge []
       (probs.Unauthorized "No TXT record found at _acme-challenge.example.com")
       eq_refl)))).
Defined.

(** X3.  For a DNS identifier [validateDNS01] makes exactly one query, a
    TXT lookup at "_acme-challenge." followed by the identifier's value,
    and never a host lookup; it logs one message when the lookup fails and
    nothing otherwise. *)
Theorem validateDNS01_one_query {F : Formatter} (va : va.ValidationAuthorityImpl)
    (identifier : core.AcmeIdentifier) (challenge : core.Challenge) (tr : list va.Event) :
  core.Type_ identifier = core.IdentifierDNS ->
  queries (trace (va.validateDNS01 va identifier challenge) tr)
  = queries tr ++ [va.QueryTXT ("_acme-challenge." +++ core.Value identifier)]
  /\ trace (va.validateDNS01 va identifier challenge) tr
     = tr ++ va.QueryTXT ("_acme-challenge." +++ core.Value identifier)
          :: match snd (va.LookupTXT (va.dnsClient va)
                          ("_acme-challenge." +++ core.Value identifier)) with
             | Some err =>
                 [va.Log va.Info "Failed to lookup TXT records for %s. err=[%#v] errStr=[%s]"
                    [va.OpIdentifier identifier; va.OpError err; va.OpError err]]
             | None => []
             end.
Proof.
  intros Ht. unfold trace. rewrite (validateDNS01_DNS _ _ _ _ Ht). cbn zeta.
  change (va.challengeSubdomain identifier) with ("_acme-challenge." +++ core.Value identifier).
  destruct (va.LookupTXT _ _) as [[txts authorities] [err|]];
    [| destruct txts as [|element txts]; [| destruct (va.rangeTXTs _ _ _ _)]];
    cbn [snd]; unfold queries; rewrite ?filter_app, <- ?app_assoc; cbn;
    rewrite ?app_nil_r; split; reflexivity.
Qed.

Lemma validateDNS01_one_query_witness :
  queries (trace (@va.validateDNS01 quotePrintable (answering ["bogus"] []) sampleIdentifier
                    sampleChallenge) [va.QueryHost "example.com"])
  = [va.QueryHost "example.com"; va.QueryTXT "_acme-challenge.example.com"].
Proof.
  exact (proj1 (@validateDNS01_one_query quotePrintable (answering ["bogus"] [])
                  sampleIdentifier sampleChallenge [va.QueryHost "example.com"] eq_refl)).
Defined.

(** X4.  What [validateDNS01] queries and logs does not depend on the
    challenge: neither the key authorization nor its digest reaches the
    DNS client or the logger. *)
Theorem validateDNS01_trace_hides_challenge {F : Formatter}
    (va : va.ValidationAuthorityImpl) (identifier : core.AcmeIdentifier)
    (challenge challenge' : core.Challenge) (tr : list va.Event) :
  trace (va.validateDNS01 va identifier challenge) tr
  = trace (va.validateDNS01 va identifier challenge') tr.
Proof.
  unfold trace.
  destruct (core.IdentifierType_eqb (core.Type_ identifier) core.IdentifierDNS) eqn:Ht.
  - apply IdentifierType_eqb_DNS in Ht.
    rewrite !(validateDNS01_DNS _ _ _ _ Ht). cbn zeta.
    destruct (va.LookupTXT _ _) as [[txts authorities] [err|]]; [reflexivity|].
    destruct txts as [|element txts]; [reflexivity|].
    do 2 destruct (va.rangeTXTs _ _ _ _); reflexivity.
  - unfold va.validateDNS01. rewrite Ht. reflexivity.
Qed.

(** X5.  [validateDNS01] reads nothing of the DNS client but its answer
    at the challenge subdomain: two validation authorities that agree
    there return the same results and leave the same trace. *)
Theorem validateDNS01_reads_one_answer {F : Formatter}
    (va va' : va.ValidationAuthorityImpl) (identifier : core.AcmeIdentifier)
    (challenge : core.Challenge) (tr : list va.Event) :
  va.LookupTXT (va.dnsClient va) ("_acme-challenge." +++ core.Value identifier)
  = va.LookupTXT (va.dnsClient va') ("_acme-challenge." +++ core.Value identifier) ->
  va.validateDNS01 va identifier challenge tr = va.validateDNS01 va' identifier challenge tr.
Proof.
  intros H.
  destruct (core.IdentifierType_eqb (core.Type_ identifier) core.IdentifierDNS) eqn:Ht.
  - apply IdentifierType_eqb_DNS in Ht.
    rewrite !(validateDNS01_DNS _ _ _ _ Ht). cbn zeta.
    change (va.challengeSubdomain identifier)
      with ("_acme-challenge." +++ core.Value identifier).
    now rewrite H.
  - unfold va.validateDNS01. rewrite Ht. reflexivity.
Qed.

Lemma validateDNS01_reads_one_answer_witness :
  @va.validateDNS01 quotePrintable (answering ["bogus"] []) sampleIdentifier sampleChallenge []
  = @va.validateDNS01 quotePrintable (answering ["bogus"] [sampleV4]) sampleIdentifier
      sampleChallenge [].
Proof.
  apply (@validateDNS01_reads_one_answer quotePrintable (answering ["bogus"] [])
           (answering ["bogus"] [sampleV4]) sampleIdentifier sampleChallenge []).
  reflexivity.
Defined.

(** X6.  Whether the validation succeeds, and with which record, does not
    depend on the order in which the lookup returns its values; nor does
    the trace. *)
Theorem validateDNS01_order_of_values {F : Formatter}
    (va va' : va.ValidationAuthorityImpl) (identifier : core.AcmeIdentifier)
    (challenge : core.Challenge) (tr : list va.Event)
    (txts txts' authorities : list string) :
  core.Type_ identifier = core.IdentifierDNS ->
  va.LookupTXT (va.dnsClient va) (va.challengeSubdomain identifier)
  = (txts, authorities, None) ->
  va.LookupTXT (va.dnsClient va') (va.challengeSubdomain identifier)
  = (txts', authorities, None) ->
  Permutation txts txts' ->
  fst (returns (va.validateDNS01 va identifier challenge) tr)
  = fst (returns (va.validateDNS01 va' identifier challenge) tr)
  /\ trace (va.validateDNS01 va identifier challenge) tr
     = trace (va.validateDNS01 va' identifier challenge) tr.
Proof.
  intros Ht Hl Hl' Hp. unfold returns, trace.
  rewrite !(validateDNS01_DNS _ _ _ _ Ht). cbn zeta. rewrite Hl, Hl'.
  destruct txts as [|e txts].
  - apply Permutation_nil in Hp. subst. split; reflexivity.
  - destruct txts' as [|e' txts'];
      [apply Permutation_sym, Permutation_nil in Hp; discriminate Hp|].
    destruct (rangeTXTs_cases (e :: txts) (va.authorizedKeysDigest challenge)
                authorities identifier) as [[Hin ->] | [Hn ->]].
    + rewrite (rangeTXTs_match _ _ authorities identifier
                 (Permutation_in _ Hp Hin)).
      split; reflexivity.
    + rewrite (rangeTXTs_no_match (e' :: txts') _ authorities identifier).
      * split; reflexivity.
      * intros Hin. apply Hn. apply (Permutation_in _ (Permutation_sym Hp) Hin).
Qed.

Lemma validateDNS01_order_of_values_witness :
  fst (returns (@va.validateDNS01 quotePrintable
                  (answering ["bogus"; va.authorizedKeysDigest sampleChallenge] [])
                  sampleIdentifier sampleChallenge) [])
  = fst (returns (@va.validateDNS01 quotePrintable
                    (answering [va.authorizedKeysDigest sampleChallenge; "bogus"] [])
                    sampleIdentifier sampleChallenge) []).
Proof.
  exact (proj1 (@validateDNS01_order_of_values quotePrintable
                  (answering ["bogus"; va.authorizedKeysDigest sampleChallenge] [])
                  (answering [va.authorizedKeysDigest sampleChallenge; "bogus"] [])
                  sampleIdentifier sampleChallenge []
                  ["bogus"; va.authorizedKeysDigest sampleChallenge]
                  [va.authorizedKeysDigest sampleChallenge; "bogus"] ["ns1"]
                  eq_refl eq_refl eq_refl (perm_swap _ _ _))).
Defined.

(** X16.  A lookup without values and a lookup whose values do not match
    give problems of the same kind with different details, so that the two
    can be told apart. *)
Theorem validateDNS01_absent_or_incorrect {F : Formatter}
    (va va' : va.ValidationAuthorityImpl) (identifier identifier' : core.AcmeIdentifier)
    (challenge challenge' : core.Challenge) (tr tr' : list va.Event)
    (authorities authorities' : list string) (first : string) (rest : list string) :
  core.Type_ identifier = core.IdentifierDNS ->
  core.Type_ identifier' = core.IdentifierDNS ->
  va.LookupTXT (va.dnsClient va) (va.challengeSubdomain identifier)
  = ([], authorities, None) ->
  va.LookupTXT (va.dnsClient va') (va.challengeSubdomain identifier')
  = (first :: rest, authorities', None) ->
  ~ In (va.authorizedKeysDigest challenge') (first :: rest) ->
  exists problem problem',
    returns (va.validateDNS01 va identifier challenge) tr = (None, Some problem)
    /\ returns (va.validateDNS01 va' identifier' challenge') tr' = (None, Some problem')
    /\ probs.Type_ problem = probs.Type_ problem'
    /\ probs.Detail problem <> probs.Detail problem'.
Proof.
  intros Ht Ht' Hl Hl' Hn. unfold returns.
  rewrite (validateDNS01_DNS _ _ _ _ Ht), (validateDNS01_DNS _ _ _ _ Ht'). cbn zeta.
  rewrite Hl, Hl', (rangeTXTs_no_match _ _ authorities' identifier' Hn).
  do 2 eexists. split; [reflexivity|]. split; [reflexivity|].
  split; [reflexivity|]. cbn. discriminate.
Qed.

Lemma validateDNS01_absent_or_incorrect_witness :
  exists problem problem',
    returns (@va.validateDNS01 quotePrintable (answering [] []) sampleIdentifier
               sampleChallenge) []
    = (None, Some problem)
    /\ returns (@va.validateDNS01 quotePrintable (answering ["bogus"] []) sampleIdentifier
                  sampleChallenge) []
       = (None, Some problem')
    /\ probs.Type_ problem = probs.Type_ problem'
    /\ probs.Detail problem <> probs.Detail problem'.
Proof.
  apply (@validateDNS01_absent_or_incorrect quotePrintable (answering [] [])
           (answering ["bogus"] []) sampleIdentifier sampleIdentifier sampleChallenge
           sampleChallenge [] [] ["ns1"] ["ns1"] "bogus" []).
  - reflexivity.
  - reflexivity.
  - reflexivity.
  - reflexivity.
  - vm_compute. intros [H | H]; [discriminate H | exact H].
Defined.

(** ** Queries and addresses *)

(** X7.  [getAddrs] makes exactly one query, a host lookup for the
    hostname, and never a TXT lookup; it logs the resolved addresses when
    it succeeds and nothing when it fails. *)
Theorem getAddrs_one_query (va : va.ValidationAuthorityImpl) (hostname : string)
    (tr : list va.Event) :
  queries (trace (va.getAddrs va hostname) tr) = queries tr ++ [va.QueryHost hostname]
  /\ trace (va.getAddrs va hostname) tr
     = tr ++ va.QueryHost hostname
          :: match fst (returns (va.getAddrs va hostname) tr) with
             | Some addrs =>
                 [va.Log va.Debug "Resolved addresses for %s: %s"
                    [va.OpString hostname; va.OpAddrs addrs]]
             | None => []
             end.
Proof.
  unfold trace, returns, va.getAddrs, va.bind, va.lookupHost, va.emit, va.ret, va.Debugf,
    va.emit. simpl.
  destruct (va.LookupHost _ _) as [addrs [err|]];
    [| destruct addrs as [|addr addrs]];
    cbn; unfold queries; rewrite ?filter_app, <- ?app_assoc; cbn;
    rewrite ?app_nil_r; split; reflexivity.
Qed.

(** X8.  The addresses a successful [getAddrs] returns are those of the
    lookup, and [availableAddresses] splits them without loss: the two
    parts together are as long as the input, one of them is not empty, and
    an address is in a part exactly when it was resolved. *)
Theorem getAddrs_then_availableAddresses (va : va.ValidationAuthorityImpl)
    (hostname : string) (tr : list va.Event) (addrs : list net.IP) :
  fst (returns (va.getAddrs va hostname) tr) = Some addrs ->
  let v4 := fst (va.availableAddresses addrs) in
  let v6 := snd (va.availableAddresses addrs) in
  addrs = fst (va.LookupHost (va.dnsClient va) hostname)
  /\ (List.length v4 + List.length v6 = List.length addrs)%nat
  /\ (v4 <> [] \/ v6 <> [])
  /\ (forall a, In a addrs <-> In a v4 \/ In a v6).
Proof.
  unfold returns, va.getAddrs, va.bind, va.lookupHost, va.emit, va.ret. simpl.
  destruct (va.LookupHost _ _) as [l [err|]]; [discriminate|].
  destruct l as [|addr l]; [discriminate|].
  cbn. intros H. injection H as <-.
  rewrite availableAddresses_filter. cbn [fst snd].
  pose proof (filter_split_permutation isIPv4 (addr :: l)) as Hp.
  assert (Hl : (List.length (filter isIPv4 (addr :: l))
                + List.length (filter (fun a => negb (isIPv4 a)) (addr :: l))
                = List.length (addr :: l))%nat).
  { rewrite <- length_app. now apply Permutation_length. }
  split; [reflexivity|]. split; [exact Hl|]. split.
  - destruct (filter isIPv4 (addr :: l)); [right | left; discriminate].
    destruct (filter _ (addr :: l)); [simpl in Hl; lia | discriminate].
  - intros a. rewrite <- in_app_iff. split; intros H.
    + apply (Permutation_in _ (Permutation_sym Hp) H).
    + apply (Permutation_in _ Hp H).
Qed.

Lemma getAddrs_then_availableAddresses_witness :
  (List.length (fst (va.availableAddresses [sampleV6; sampleV4]))
   + List.length (snd (va.availableAddresses [sampleV6; sampleV4])) = 2)%nat.
Proof.
  exact (proj1 (proj2 (getAddrs_then_availableAddresses
                         (answering [] [sampleV6; sampleV4]) "example.com" []
                         [sampleV6; sampleV4] eq_refl))).
Defined.

(** X9.  [availableAddresses] works address by address: the split of a
    concatenation is the concatenation of the splits. *)
Theorem availableAddresses_app (l1 l2 : list net.IP) :
  va.availableAddresses (l1 ++ l2)
  = (fst (va.availableAddresses l1) ++ fst (va.availableAddresses l2),
     snd (va.availableAddresses l1) ++ snd (va.availableAddresses l2)).
Proof.
  rewrite !availableAddresses_filter. cbn [fst snd]. now rewrite !filter_app.
Qed.

Lemma filter_filter_same {A : Type} (f : A -> bool) (l : list A) :
  filter f (filter f l) = filter f l
  /\ filter (fun a => negb (f a)) (filter f l) = [].
Proof.
  induction l as [|a l [IH1 IH2]]; [split; reflexivity|].
  simpl. destruct (f a) eqn:E; simpl; rewrite ?E; simpl; rewrite ?IH1, ?IH2; split; reflexivity.
Qed.

(** X10.  Classifying again changes nothing: the IPv4 part of a split is
    all IPv4, the IPv6 part has no IPv4 address in it. *)
Theorem availableAddresses_again (allAddrs : list net.IP) :
  va.availableAddresses (fst (va.availableAddresses allAddrs))
  = (fst (va.availableAddresses allAddrs), [])
  /\ va.availableAddresses (snd (va.availableAddresses allAddrs))
     = ([], snd (va.availableAddresses allAddrs)).
Proof.
  rewrite !availableAddresses_filter. cbn [fst snd].
  destruct (filter_filter_same isIPv4 allAddrs) as [E1 E2].
  destruct (filter_filter_same (fun a => negb (isIPv4 a)) allAddrs) as [E3 E4].
  rewrite E1, E2, E3. split; [reflexivity|]. f_equal.
  rewrite <- E4. apply filter_ext. intros a. now rewrite negb_involutive.
Qed.

Lemma To4_four_bytes (ip : net.IP) :
  (forall r, net.To4 ip = Some r -> List.length r = 4%nat /\ net.To4 r = Some r)
  /\ (List.length ip = 4%nat -> net.To4 ip = Some ip)
  /\ (List.length ip <> 4%nat -> List.length ip <> 16%nat -> net.To4 ip = None)
  /\ (List.length ip = 16%nat ->
      (net.To4 ip = Some (skipn 12 ip)
       <-> firstn 12 ip = repeat Init.Byte.x00 10 ++ [Init.Byte.xff; Init.Byte.xff])).
Proof.
  assert (P2 : forall r : net.IP, List.length r = 4%nat -> net.To4 r = Some r).
  { intros r E. unfold net.To4, net.IPv4len. now rewrite (proj2 (Nat.eqb_eq _ _) E). }
  split; [|split; [exact (P2 ip)|split]].
  - intros r H.
    assert (L : List.length r = 4%nat).
    { unfold net.To4, net.IPv4len, net.IPv6len in H.
      destruct (Nat.eqb_spec (List.length ip) 4) as [E|NE].
      - injection H as <-. exact E.
      - destruct (_ && _ && _ && _) eqn:C; [|discriminate].
        apply andb_true_iff in C as [C _]. apply andb_true_iff in C as [C _].
        apply andb_true_iff in C as [C _]. apply Nat.eqb_eq in C.
        assert (Er : r = firstn 4 (skipn 12 ip)) by congruence.
        rewrite Er, length_firstn, length_skipn. lia. }
    split; [exact L | exact (P2 r L)].
  - intros N4 N16. unfold net.To4, net.IPv4len, net.IPv6len.
    rewrite (proj2 (Nat.eqb_neq _ _) N4), (proj2 (Nat.eqb_neq _ _) N16).
    reflexivity.
  - intros E. unfold net.To4, net.IPv4len, net.IPv6len. rewrite E. cbn [Nat.eqb andb].
    do 17 (destruct ip as [|? ip]; try discriminate E). clear E.
    cbn [firstn skipn nth net.isZeros forallb repeat app].
    split.
    + destruct (_ && _ && _) eqn:C; [|discriminate]. intros _.
      repeat match goal with
             | H : (_ && _) = true |- _ => apply andb_true_iff in H; destruct H
             | H : Byte.eqb _ _ = true |- _ => apply Byte.byte_dec_bl in H; subst
             end.
      reflexivity.
    + intros H. injection H as -> -> -> -> -> -> -> -> -> -> -> ->. reflexivity.
Qed.

(** ** Comparison and digest *)

Lemma authorizedKeysDigest_unpadded (challenge : core.Challenge) :
  va.authorizedKeysDigest challenge
  = base64url_unpadded
      (sha256.Sum256 (bytes_of_string (core.ProvidedKeyAuthorization challenge))).
Proof.
  unfold va.authorizedKeysDigest, sha256.Sum, sha256.Write, sha256.New.
  cbn [app]. apply RawURLEncoding_unpadded.
Qed.


Lemma isIPv4_shape (addr : net.IP) :
  isIPv4 addr = true
  <-> List.length addr = 4%nat
      \/ (List.length addr = 16%nat
          /\ firstn 12 addr = repeat Init.Byte.x00 10 ++ [Init.Byte.xff; Init.Byte.xff]).
Proof.
  unfold isIPv4, net.To4, net.IPv4len, net.IPv6len.
  destruct (Nat.eqb_spec (List.length addr) 4) as [E4|N4]; [tauto|].
  destruct (Nat.eqb_spec (List.length addr) 16) as [E16|N16].
  - cbn [andb].
    do 17 (destruct addr as [|? addr]; try discriminate E16).
    cbn [firstn skipn nth net.isZeros forallb repeat app].
    split.
    + destruct (_ && _ && _) eqn:C; [|discriminate]. intros _. right.
      split; [reflexivity|].
      repeat match goal with
             | H : (_ && _) = true |- _ => apply andb_true_iff in H; destruct H
             | H : Byte.eqb _ _ = true |- _ => apply Byte.byte_dec_bl in H; subst
             end.
      reflexivity.
    + intros [H|[_ H]]; [discriminate H|].
      injection H as -> -> -> -> -> -> -> -> -> -> -> ->. reflexivity.
  - cbn [andb]. split; [discriminate|]. intros [H|[H _]]; contradiction.
Qed.

(** X11.  [availableAddresses] puts in [v4] the addresses of 4 bytes and
    the addresses of 16 bytes that start with ten zero bytes and two bytes
    0xff (IPv4-mapped); every other address, whatever its length, goes to
    [v6]. *)
Theorem availableAddresses_v4_shape (allAddrs : list net.IP) (a : net.IP) :
  (In a (fst (va.availableAddresses allAddrs))
   <-> In a allAddrs /\
       (List.length a = 4%nat
        \/ (List.length a = 16%nat
            /\ firstn 12 a = repeat Init.Byte.x00 10 ++ [Init.Byte.xff; Init.Byte.xff])))
  /\ (In a (snd (va.availableAddresses allAddrs))
      <-> In a allAddrs /\
          ~ (List.length a = 4%nat
             \/ (List.length a = 16%nat
                 /\ firstn 12 a
                    = repeat Init.Byte.x00 10 ++ [Init.Byte.xff; Init.Byte.xff]))).
Proof.
  rewrite availableAddresses_filter. cbn [fst snd]. rewrite !filter_In.
  rewrite <- isIPv4_shape. destruct (isIPv4 a); cbn; intuition congruence.
Qed.

(** X12.  The comparison of [validateDNS01] returns 1 exactly on equal
    byte sequences and 0 on all others, lengths included, and is
    symmetric. *)
Theorem ConstantTimeCompare_decides (x y : list byte) :
  (subtle.ConstantTimeCompare x y = 1 <-> x = y)
  /\ (subtle.ConstantTimeCompare x y = 0 <-> x <> y)
  /\ subtle.ConstantTimeCompare x y = subtle.ConstantTimeCompare y x.
Proof.
  assert (B : forall a b, subtle.ConstantTimeCompare a b = 0
                          \/ subtle.ConstantTimeCompare a b = 1).
  { intros a b. unfold subtle.ConstantTimeCompare.
    destruct (negb _); [left; reflexivity|].
    destruct (fold_accumulate (combine a b) 0 ltac:(lia)) as [Hr _].
    fold (subtle.accumulate a b) in Hr.
    unfold subtle.ConstantTimeByteEq. rewrite Z.lxor_0_r, Z.shiftr_div_pow2 by lia.
    destruct (Z.eq_dec (subtle.accumulate a b) 0) as [->|Hn]; [right; reflexivity|].
    left. rewrite Z.mod_small by lia. apply Z.div_small. lia. }
  pose proof (ConstantTimeCompare_eq x y) as E.
  split; [exact E|]. split.
  - destruct (B x y) as [H|H]; rewrite H; split; try discriminate; try reflexivity.
    + intros _ Hxy. apply E in Hxy. congruence.
    + intros Hn. exfalso. apply Hn. now apply E.
  - destruct (B x y) as [H|H], (B y x) as [H'|H']; try congruence.
    + apply ConstantTimeCompare_eq in H'. symmetry in H'. apply E in H'. congruence.
    + apply E in H. symmetry in H. apply ConstantTimeCompare_eq in H. congruence.
Qed.

(** X13.  The match is exact: when every value of the lookup is not 43
    characters long or has a character outside the URL-safe alphabet (a
    padded, quoted or spaced digest, say), [validateDNS01] returns no
    record. *)
Theorem validateDNS01_match_is_exact {F : Formatter} (va : va.ValidationAuthorityImpl)
    (identifier : core.AcmeIdentifier) (challenge : core.Challenge) (tr : list va.Event)
    (txts authorities : list string) :
  va.LookupTXT (va.dnsClient va) (va.challengeSubdomain identifier)
  = (txts, authorities, None) ->
  (forall element, In element txts ->
     String.length element <> 43%nat
     \/ exists c, In c (list_ascii_of_string element)
                  /\ ~ In c (list_ascii_of_string base64.encodeURL)) ->
  fst (returns (va.validateDNS01 va identifier challenge) tr) = None.
Proof.
  intros Hl Hbad.
  destruct (fst (returns (va.validateDNS01 va identifier challenge) tr)) as [records|] eqn:E;
    [|reflexivity].
  exfalso.
  unfold returns in E.
  destruct (core.IdentifierType_eqb (core.Type_ identifier) core.IdentifierDNS) eqn:Ht.
  - apply IdentifierType_eqb_DNS in Ht.
    rewrite (validateDNS01_DNS _ _ _ _ Ht) in E. cbn zeta in E. rewrite Hl in E.
    destruct txts as [|element txts]; [discriminate E|].
    destruct (rangeTXTs_cases (element :: txts) (va.authorizedKeysDigest challenge)
                authorities identifier) as [[Hin H] | [_ H]]; rewrite H in E;
      [|discriminate E].
    destruct (Hbad _ Hin) as [Hlen | (c & Hc & Hnot)].
    + apply Hlen.
      rewrite authorizedKeysDigest_unpadded, base64url_unpadded_length, Sum256_length.
      reflexivity.
    + apply Hnot. apply (base64url_unpadded_alphabet
                           (sha256.Sum256 (bytes_of_string
                                             (core.ProvidedKeyAuthorization challenge)))).
      now rewrite <- authorizedKeysDigest_unpadded.
  - unfold va.validateDNS01 in E. rewrite Ht in E. discriminate E.
Qed.

Lemma validateDNS01_match_is_exact_witness :
  fst (returns (@va.validateDNS01 quotePrintable
                  (answering [va.authorizedKeysDigest sampleChallenge +++ "="] [])
                  sampleIdentifier sampleChallenge) []) = None.
Proof.
  apply (@validateDNS01_match_is_exact quotePrintable
           (answering [va.authorizedKeysDigest sampleChallenge +++ "="] [])
           sampleIdentifier sampleChallenge []
           [va.authorizedKeysDigest sampleChallenge +++ "="] ["ns1"]).
  - reflexivity.
  - intros element [<- | H]; [|contradiction H].
    left. vm_compute. discriminate.
Defined.

Lemma digit64_inj (n m : Z) : digit64 n = digit64 m -> n mod 64 = m mod 64.
Proof.
  unfold digit64.
  pose proof (Z.mod_pos_bound n 64 eq_refl) as Hn.
  pose proof (Z.mod_pos_bound m 64 eq_refl) as Hm.
  set (i := n mod 64) in *. set (j := m mod 64) in *. intros H.
  pose proof (allBelow_spec 64
    (fun i => allBelow 64
       (fun j => if Ascii.eqb (nth (Z.to_nat i) (list_ascii_of_string base64.encodeURL) zero)
                              (nth (Z.to_nat j) (list_ascii_of_string base64.encodeURL) zero)
                 then i =? j else true)) eq_refl i Hn) as Hi.
  cbv beta in Hi. pose proof (allBelow_spec 64 _ Hi j Hm) as Hij.
  cbv beta in Hij. rewrite H, Ascii.eqb_refl in Hij. now apply Z.eqb_eq.
Qed.

Ltac digits :=
  repeat match goal with
         | H : String _ _ = String _ _ |- _ => injection H; clear H; intros
         | H : digit64 _ = digit64 _ |- _ => apply digit64_inj in H
         end.

Lemma base64url_unpadded_inj (src src' : list byte) :
  base64url_unpadded src = base64url_unpadded src' -> src = src'.
Proof.
  revert src'.
  induction src as [|a|a b|a b c src IH] using list_ind3;
    intros [|a' [|b' [|c' src']]] H; cbn [base64url_unpadded] in H;
    try reflexivity; try discriminate H; digits;
    try match goal with
        | H : EmptyString = String _ _ |- _ => discriminate H
        | H : String _ _ = EmptyString |- _ => discriminate H
        end.
  - f_equal. apply byte_to_Z_inj.
    pose proof (byte_to_Z_range a). pose proof (byte_to_Z_range a').
    Z.div_mod_to_equations. lia.
  - pose proof (byte_to_Z_range a). pose proof (byte_to_Z_range a').
    pose proof (byte_to_Z_range b). pose proof (byte_to_Z_range b').
    assert (byte_to_Z a = byte_to_Z a' /\ byte_to_Z b = byte_to_Z b')
      by (Z.div_mod_to_equations; lia).
    f_equal; [|f_equal]; apply byte_to_Z_inj; tauto.
  - pose proof (byte_to_Z_range a). pose proof (byte_to_Z_range a').
    pose proof (byte_to_Z_range b). pose proof (byte_to_Z_range b').
    pose proof (byte_to_Z_range c). pose proof (byte_to_Z_range c').
    assert (byte_to_Z a = byte_to_Z a' /\ byte_to_Z b = byte_to_Z b'
            /\ byte_to_Z c = byte_to_Z c')
      by (Z.div_mod_to_equations; lia).
    match goal with H : base64url_unpadded _ = base64url_unpadded _ |- _ =>
      rewrite (IH _ H) end.
    f_equal; [|f_equal; [|f_equal]]; apply byte_to_Z_inj; tauto.
Qed.

(** X14.  Two challenges have the same expected proof exactly when their
    key authorizations have the same SHA-256 digest: the encoding loses
    nothing of the digest. *)
Theorem authorizedKeysDigest_determines_digest (challenge challenge' : core.Challenge) :
  va.authorizedKeysDigest challenge = va.authorizedKeysDigest challenge'
  <-> sha256.Sum256 (bytes_of_string (core.ProvidedKeyAuthorization challenge))
      = sha256.Sum256 (bytes_of_string (core.ProvidedKeyAuthorization challenge')).
Proof.
  rewrite !authorizedKeysDigest_unpadded. split.
  - apply base64url_unpadded_inj.
  - now intros ->.
Qed.



